(** * Reverse-time samplers of [src/samplers/utils.py]

    A shallow embedding of the predictor / corrector update rules of the
    score-based reconstruction code and of the place in
    [src/utils/exp_utils.py] where the decomposed sampler is assembled.

    Conventions of the embedding.

    - Tensor entries are real numbers: the arithmetic of the code is read in
      exact arithmetic, so rounding, overflow and the exceptional values of
      IEEE arithmetic are outside the model.  [t.pow(2)] is [t ^ 2],
      [t.pow(.5)] and [torch.sqrt] are [sqrt], [t.pow(-1)] is [/ t].
    - A state tensor of shape [(B, 1, H, W)] is a function from the batch
      index and the row-major pixel index to its entry; a tensor of shape
      [(B,)] is a function of the batch index.  The shape is ambient
      ([B], [H], [W] below); entries outside the shape are never read by a
      statement of this file.
    - [assert] statements are executed (the interpreter does not run with
      [-O]).
    - The reciprocal [loss.pow(-1)] is the inverse of the reals; at a zero
      loss the code computes [inf], which no real number models: statements
      whose truth depends on that value carry the hypothesis that the loss
      is not zero, and the section on exceptional values below follows the
      code there.
    - [torch.autograd.grad] is read as the gradient it returns; the
      [RuntimeError] it raises for a loss that does not depend on its input
      is not modelled, so a statement about a call with a data-fit function
      speaks of the calls in which the gradient exists.
    - Calls to the outside (score network, data-fit function, automatic
      differentiation, the random generator, the linear solver) are threaded
      through a small state-and-exception monad whose state holds the random
      generator and a chronological trace of the calls made. *)

From Stdlib Require Import Reals Lra Lia List String ZArith Bool.
From Stdlib Require Import FunctionalExtensionality.
Import ListNotations.
Local Open Scope R_scope.

(** ** Tensors *)

Definition tensor := nat -> nat -> R.
Definition tvec := nat -> R.

(** Equality of all entries. *)
Definition teq (x y : tensor) : Prop := forall b n, x b n = y b n.
Infix "=t=" := teq (at level 70, no associativity).

(** [c[:, None, None, None]]: a per-sample value broadcast over the pixels. *)
Definition unsqueeze (c : tvec) : tensor := fun b _ => c b.

Definition tadd (x y : tensor) : tensor := fun b n => x b n + y b n.
Definition tsub (x y : tensor) : tensor := fun b n => x b n - y b n.
Definition tmul (x y : tensor) : tensor := fun b n => x b n * y b n.
Definition tdiv (x y : tensor) : tensor := fun b n => x b n / y b n.
Definition topp (x : tensor) : tensor := fun b n => - x b n.
Definition tpow2 (x : tensor) : tensor := fun b n => x b n ^ 2.
Definition tsqrt (x : tensor) : tensor := fun b n => sqrt (x b n).
(** Python scalar on the left / on the right of a tensor. *)
Definition lscale (a : R) (x : tensor) : tensor := fun b n => a * x b n.
Definition rscale (x : tensor) (a : R) : tensor := fun b n => x b n * a.
(** [1 - t] and [t - a] with a Python scalar. *)
Definition rsub_scalar (a : R) (x : tensor) : tensor := fun b n => a - x b n.
Definition vsub_scalar (t : tvec) (a : R) : tvec := fun b => t b - a.

(** Sum of [f 0 .. f (n-1)]. *)
Fixpoint sum_upto (n : nat) (f : nat -> R) : R :=
  match n with
  | O => 0
  | S k => sum_upto k f + f k
  end.

(** ** Effects *)

Inductive event : Type :=
| EvRequiresGrad   (* x.requires_grad_() *)
| EvScore          (* score(x, time_step) *)
| EvNloglik        (* nloglik(...) *)
| EvAutograd       (* torch.autograd.grad(...) *)
| EvRandn          (* torch.randn_like(x) *)
| EvLinearCG.      (* linear_cg(...) *)

(** The exceptions the modelled code raises.  A [TypeError] carries what
    Python reports. *)
Inductive type_error : Type :=
| UnexpectedKeyword (name : string)   (* got an unexpected keyword argument *)
| MultipleValues (name : string)      (* got multiple values for argument *)
| MissingArgument (name : string)     (* missing a required argument *)
| TooManyPositional                   (* takes n positional arguments *)
| UnsupportedOperand.                 (* unsupported operand type(s) *)

Inductive exn : Type :=
| AssertionError
| TypeError (why : type_error)
| AttributeError.

(** The generator is the stream of the draws still to come. *)
Record world : Type := mkWorld {
  rng : nat -> tensor;
  trace : list event
}.

Definition M (A : Type) : Type := world -> (exn + A) * world.

Definition ret {A} (a : A) : M A := fun w => (inr a, w).
Definition raise {A} (e : exn) : M A := fun w => (inl e, w).
Definition bind {A C} (m : M A) (k : A -> M C) : M C :=
  fun w =>
    match m w with
    | (inl e, w') => (inl e, w')
    | (inr a, w') => k a w'
    end.

Notation "x <- m ;; k" := (bind m (fun x => k))
  (at level 61, m at next level, right associativity).
Notation "m ;;; k" := (bind m (fun _ => k))
  (at level 61, right associativity).

Definition emit (e : event) : M unit :=
  fun w => (inr tt, mkWorld (rng w) (trace w ++ [e])).

(** [assert c] *)
Definition py_assert (c : bool) : M unit :=
  if c then ret tt else raise AssertionError.

(** A value that Python arithmetic needs: [None * tensor] is a [TypeError]. *)
Definition as_float (o : option R) : M R :=
  match o with
  | Some a => ret a
  | None => raise (TypeError UnsupportedOperand)
  end.

(** [torch.randn_like(x)]: the next draw, the generator moves on. *)
Definition next_draw (w : world) : tensor := rng w 0%nat.
Definition randn_like : M tensor :=
  fun w => (inr (next_draw w),
            mkWorld (fun k => rng w (S k)) (trace w ++ [EvRandn])).

Definition is_some {A} (o : option A) : bool :=
  match o with Some _ => true | None => false end.

(** ** Outside capabilities *)

(** The noise schedule ([SDE] of [src/utils], imported by the samplers):
    two functions of a batch of times. *)
Record SDE : Type := mkSDE {
  marginal_prob_std : tvec -> tvec;
  diffusion_coeff : tvec -> tvec
}.

Definition score_fn := tensor -> tvec -> tensor.
Definition nloglik_fn := tensor -> R.

(** The forward operator ([BaseRayTrafo] of [src/physics], imported by the
    samplers): the operator, its adjoint, and the image shape it declares. *)
Record RayTrafo : Type := mkRayTrafo {
  trafo : tensor -> tensor;
  trafo_adjoint : tensor -> tensor;
  im_shape : nat * nat
}.

(** A matrix of shape [(H*W, B)]: one column per sample. *)
Definition mat := nat -> nat -> R.
Definition transpose (m : nat -> nat -> R) : nat -> nat -> R := fun i j => m j i.

(** [1e-5] *)
Definition c1em5 : R := 1 / 100000.

(** ** Python calls with keyword arguments *)

(** The values that are passed around by name in the modelled code. *)
Inductive pyval : Type :=
| PyTensor (t : nat -> nat -> R)
| PyTrafo (rt : RayTrafo)
| PyFloat (a : R).

Definition kwargs := list (string * pyval).

(** A parameter: its name and its default value, if it has one. *)
Definition param := (string * option pyval)%type.

Fixpoint lookup (k : string) (env : kwargs) : option pyval :=
  match env with
  | [] => None
  | (k', v) :: env' => if String.eqb k k' then Some v else lookup k env'
  end.

(** Positional arguments fill the parameters from the left. *)
Fixpoint bind_positional (sig : list param) (args : list pyval)
  : exn + kwargs :=
  match args, sig with
  | [], _ => inr []
  | _ :: _, [] => inl (TypeError TooManyPositional)
  | a :: args', (name, _) :: sig' =>
      match bind_positional sig' args' with
      | inl e => inl e
      | inr env => inr ((name, a) :: env)
      end
  end.

(** A keyword must name a parameter (the modelled functions take no
    [**kwargs]) that no earlier argument has filled. *)
Fixpoint bind_keywords (sig : list param) (env : kwargs) (kw : kwargs)
  : exn + kwargs :=
  match kw with
  | [] => inr env
  | (k, v) :: kw' =>
      if negb (existsb (fun p => String.eqb k (fst p)) sig)
      then inl (TypeError (UnexpectedKeyword k))
      else if is_some (lookup k env)
      then inl (TypeError (MultipleValues k))
      else bind_keywords sig ((k, v) :: env) kw'
  end.

(** A parameter still empty takes its default; without one the call fails. *)
Fixpoint fill_defaults (sig : list param) (env : kwargs) : exn + kwargs :=
  match sig with
  | [] => inr env
  | (name, dflt) :: sig' =>
      match lookup name env, dflt with
      | Some _, _ => fill_defaults sig' env
      | None, Some v => fill_defaults sig' ((name, v) :: env)
      | None, None => inl (TypeError (MissingArgument name))
      end
  end.

Definition bind_arguments (sig : list param) (args : list pyval) (kw : kwargs)
  : exn + kwargs :=
  match bind_positional sig args with
  | inl e => inl e
  | inr env =>
      match bind_keywords sig env kw with
      | inl e => inl e
      | inr env' => fill_defaults sig env'
      end
  end.

(** [functools.partial(func, **keywords)]; calling it passes the call's
    positional arguments and the stored keywords updated by the call's. *)
Record partial (A : Type) : Type := mkPartial {
  p_func : list pyval -> kwargs -> exn + A;
  p_keywords : kwargs
}.
Arguments mkPartial {A} _ _.
Arguments p_func {A} _ _ _.
Arguments p_keywords {A} _.

Fixpoint dict_set (k : string) (v : pyval) (d : kwargs) : kwargs :=
  match d with
  | [] => [(k, v)]
  | (k', v') :: d' =>
      if String.eqb k k' then (k, v) :: d' else (k', v') :: dict_set k v d'
  end.

Definition dict_update (d new : kwargs) : kwargs :=
  fold_left (fun acc kv => dict_set (fst kv) (snd kv) acc) new d.

Definition call_partial {A} (p : partial A) (args : list pyval) (kw : kwargs)
  : exn + A :=
  p_func p args (dict_update (p_keywords p) kw).

Section Samplers.

(** Shape [(B, 1, H, W)] of the state. *)
Variables B H W : nat.

(** [torch.autograd.grad(outputs=f(x), inputs=x)[0]]: the gradient at [x]
    of the scalar function that produced the loss. *)
Variable autograd : (tensor -> R) -> tensor -> tensor.

Definition call_score (score : score_fn) (x : tensor) (t : tvec) : M tensor :=
  emit EvScore ;;; ret (score x t).

Definition call_nloglik (f : nloglik_fn) (x : tensor) : M R :=
  emit EvNloglik ;;; ret (f x).

Definition autograd_grad (f : tensor -> R) (x : tensor) : M tensor :=
  emit EvAutograd ;;; ret (autograd f x).

(** *** [Euler_Maruyama_VE_sde_predictor] *)

Definition Euler_Maruyama_VE_sde_predictor
    (score : score_fn) (sde : SDE) (x : tensor) (time_step : tvec)
    (step_size : R) (nloglik : option nloglik_fn)
    (datafitscale penalty : option R) (aTweedy : bool)
  : M (tensor * tensor) :=
  match nloglik with
  | Some _ => py_assert (is_some datafitscale && is_some penalty)
  | None => ret tt
  end ;;;
  emit EvRequiresGrad ;;;
  s <- call_score score x time_step ;;
  fit <- match nloglik with
         | Some f =>
             let std2 := tpow2 (unsqueeze (marginal_prob_std sde time_step)) in
             let xhat0 := tadd x (tmul s std2) in
             loss <- call_nloglik f (if aTweedy then xhat0 else x) ;;
             (* the loss as a function of the input [x]: in Tweedy mode the
                score is not detached and the gradient runs through it *)
             let objective x' :=
               f (if aTweedy then tadd x' (tmul (score x' time_step) std2)
                  else x') in
             nloglik_grad <- autograd_grad objective x ;;
             ret (Some (loss, nloglik_grad))
         | None => ret None
         end ;;
  let diffusion := unsqueeze (diffusion_coeff sde time_step) in
  let eta := rscale (tpow2 diffusion) step_size in
  let update := tmul s eta in
  let x_mean := tadd x update in
  x_mean <- match fit with
            | Some (loss, nloglik_grad) =>
                let datafit := tmul nloglik_grad eta in
                let datafitscale :=
                  if aTweedy then Some (/ loss) else datafitscale in
                p <- as_float penalty ;;
                d <- as_float datafitscale ;;
                ret (tsub x_mean (rscale (lscale p datafit) d))
            | None => ret x_mean
            end ;;
  z <- randn_like ;;
  let noise := tmul (tsqrt eta) z in
  let x := tadd x_mean noise in
  ret (x, x_mean).

(** *** [Langevin_VE_sde_corrector] *)

(** [np.prod(x.shape[1:])] *)
Definition numel_per_sample : nat := (1 * H * W)%nat.

(** [torch.norm(g.reshape(g.shape[0], -1), dim=-1).mean()] *)
Definition mean_sample_norm (g : tensor) : R :=
  sum_upto B (fun b => sqrt (sum_upto numel_per_sample (fun n => g b n ^ 2)))
  / INR B.

Definition langevin_iteration
    (score : score_fn) (x : tensor) (time_step : tvec)
    (nloglik : option nloglik_fn) (datafitscale penalty : option R) (snr : R)
  : M tensor :=
  emit EvRequiresGrad ;;;
  s <- call_score score x time_step ;;
  overall_grad <- match nloglik with
                  | Some f =>
                      _ <- call_nloglik f x ;;
                      nloglik_grad <- autograd_grad f x ;;
                      p <- as_float penalty ;;
                      d <- as_float datafitscale ;;
                      ret (tsub s (rscale (lscale p nloglik_grad) d))
                  | None => ret s
                  end ;;
  let overall_grad_norm := mean_sample_norm overall_grad in
  let noise_norm := sqrt (INR numel_per_sample) in
  let langevin_step_size := 2 * (snr * noise_norm / overall_grad_norm) ^ 2 in
  z <- randn_like ;;
  ret (tadd (tadd x (lscale langevin_step_size overall_grad))
            (lscale (sqrt (2 * langevin_step_size)) z)).

(** [for _ in range(k)] *)
Fixpoint langevin_loop
    (k : nat) (score : score_fn) (x : tensor) (time_step : tvec)
    (nloglik : option nloglik_fn) (datafitscale penalty : option R) (snr : R)
  : M tensor :=
  match k with
  | O => ret x
  | S k' =>
      x' <- langevin_iteration score x time_step nloglik datafitscale penalty snr ;;
      langevin_loop k' score x' time_step nloglik datafitscale penalty snr
  end.

Definition Langevin_VE_sde_corrector
    (score : score_fn) (sde : SDE) (x : tensor) (time_step : tvec)
    (nloglik : option nloglik_fn) (datafitscale penalty : option R)
    (corrector_steps : Z) (snr : R)
  : M tensor :=
  match nloglik with
  | Some _ => py_assert (is_some datafitscale && is_some penalty)
  | None => ret tt
  end ;;;
  langevin_loop (Z.to_nat corrector_steps) score x time_step
                nloglik datafitscale penalty snr.

(** *** [decomposed_diffusion_sampling_VE_sde_predictor] *)

(** The linear solver [linear_cg] is imported from [src/utils] and is not
    part of the sources at hand: it is a parameter.  It receives the
    matrix-vector product (a Python callable, which may raise), the
    right-hand side, the initial guess and the solver options, and returns
    the solution together with a second value that the caller drops. *)
Variable cg_aux : Type.
Definition closure := mat -> exn + mat.
Definition cg_options := list (string * Z).
Variable linear_cg :
  closure -> mat -> mat -> cg_options -> exn + (mat * cg_aux).

Definition call_linear_cg
    (matmul_closure : closure) (rhs initial_guess : mat) (kw : cg_options)
  : M (mat * cg_aux) :=
  fun w => (linear_cg matmul_closure rhs initial_guess kw,
            mkWorld (rng w) (trace w ++ [EvLinearCG])).

(** The entry at position [k] of the row-major order of a [(B, 1, H, W)]
    tensor. *)
Definition row_major (t : tensor) (k : nat) : R :=
  t (k / (H * W))%nat (k mod (H * W))%nat.

(** [t.reshape(np.prod(t.shape[2:]), t.shape[0])] of a [(B, 1, H, W)]
    tensor: the entries in row-major order, cut into rows of length [B]. *)
Definition reshape_flat (t : tensor) : mat :=
  fun i j => row_major t (i * B + j).

(** [m.T.view(B, 1, H, W)] of an [(H*W, B)] matrix. *)
Definition unflatten (m : mat) : tensor := transpose m.

Definition decomposed_diffusion_sampling_VE_sde_predictor
    (score : score_fn) (sde : SDE) (x rhs : tensor) (time_step : tvec)
    (conj_grad_closure : closure) (eta step_size : R)
    (cg_kwargs : cg_options) (datafitscale : option R)
  : M (tensor * tensor) :=
  let datafitscale : option R := Some 1 in (* place-holder *)
  s <- call_score score x time_step ;;
  let std := unsqueeze (marginal_prob_std sde time_step) in
  let xhat0 := tadd x (tmul s (tpow2 std)) in
  let rhs_flat := reshape_flat rhs in
  let xhat0_flat := reshape_flat xhat0 in
  sol <- call_linear_cg conj_grad_closure
           (tadd (rscale rhs_flat c1em5) xhat0_flat)
           (reshape_flat xhat0)
           cg_kwargs ;;
  let xhat := unflatten (fst sol) in
  let std_t := unsqueeze (marginal_prob_std sde time_step) in
  let std_tminus1 :=
    unsqueeze (marginal_prob_std sde (vsub_scalar time_step step_size)) in
  let beta := rsub_scalar 1 (tdiv (tpow2 std_tminus1) (tpow2 std_t)) in
  let noise_deterministic :=
    tmul (tmul (tmul (topp std_tminus1) std_t)
               (tsqrt (rsub_scalar 1 (rscale (tpow2 beta) (eta ^ 2)))))
         s in
  z <- randn_like ;;
  let noise_stochastic := tmul (tmul (rscale std_tminus1 eta) beta) z in
  let x := tadd (tadd xhat noise_deterministic) noise_stochastic in
  ret (x, xhat).

(** *** [conj_grad_closure] *)

Definition conj_grad_closure (x : mat) (ray_trafo : RayTrafo) (eps : R) : mat :=
  let x := transpose x in               (* x.T.reshape(batch_size, 1, *im_shape) *)
  transpose                             (* .view(batch_size, prod(im_shape)).T *)
    (tadd (lscale eps (trafo_adjoint ray_trafo (trafo ray_trafo x))) x).

(** The signature [def conj_grad_closure(x, ray_trafo, eps=1e-5)]. *)
Definition conj_grad_closure_sig : list param :=
  [("x"%string, None); ("ray_trafo"%string, None);
   ("eps"%string, Some (PyFloat c1em5))].

(** The function as Python calls it: the arguments are bound to the
    parameters first, then the body runs.  The body reads [x.shape], then
    [ray_trafo.im_shape], then multiplies by [eps]. *)
Definition conj_grad_closure_py (args : list pyval) (kw : kwargs)
  : exn + mat :=
  match bind_arguments conj_grad_closure_sig args kw with
  | inl e => inl e
  | inr env =>
      match lookup "x" env, lookup "ray_trafo" env, lookup "eps" env with
      | Some (PyTensor x), Some (PyTrafo rt), Some (PyFloat eps) =>
          inr (conj_grad_closure x rt eps)
      | Some (PyTensor x), Some (PyTrafo rt), Some (PyTensor eps) =>
          inr (transpose
                 (tadd (tmul eps (trafo_adjoint rt (trafo rt (transpose x))))
                       (transpose x)))
      | Some (PyTensor _), Some (PyTrafo _), _ =>
          inl (TypeError UnsupportedOperand)
      | _, _, _ => inl AttributeError
      end
  end.

(** *** [get_standard_sampler], method ['dds'] *)

Definition conj_grad_closure_partial (ray_trafo : RayTrafo) (gamma : R)
  : partial mat :=
  mkPartial conj_grad_closure_py
    [("ray_trafo"%string, PyTrafo ray_trafo); ("gamma"%string, PyFloat gamma)].

(** The closure as the solver calls it: [matmul_closure(v)]. *)
Definition as_closure (p : partial mat) : closure :=
  fun v => call_partial p [PyTensor v] [].

(** [functools.partial(decomposed_diffusion_sampling_sde_predictor,
    score=, sde=, rhs=, conj_grad_closure=, cg_kwargs=)]; the sampler
    supplies the state, the time, the step size and [eta]. *)
Definition dds_predictor
    (score : score_fn) (sde : SDE) (ray_trafo : RayTrafo)
    (observation : tensor) (gamma : R)
    (x : tensor) (time_step : tvec) (eta step_size : R)
    (datafitscale : option R)
  : M (tensor * tensor) :=
  decomposed_diffusion_sampling_VE_sde_predictor
    score sde x (trafo_adjoint ray_trafo observation) time_step
    (as_closure (conj_grad_closure_partial ray_trafo gamma))
    eta step_size
    [("max_iter"%string, 5%Z); ("max_tridiag_iter"%string, 4%Z)]
    datafitscale.

End Samplers.

(** * Code outside the claims *)

(** ** The data-fit function of [get_standard_sampler]

    [lambda x: torch.linalg.norm(observation - ray_trafo(x))]
    ([exp_utils.py], lines 75, 88 and 127): the Euclidean norm of all the
    entries of the residual, for [B] measurements of [M] entries each. *)
Definition sum_squares (B M : nat) (r : tensor) : R :=
  sum_upto B (fun b => sum_upto M (fun m => r b m ^ 2)).

Definition residual_norm (B M : nat) (observation : tensor)
    (ray_trafo : RayTrafo) : nloglik_fn :=
  fun x => sqrt (sum_squares B M (tsub observation (trafo ray_trafo x))).

(** ** Tensors with their shape

    The chain initializer adds and multiplies tensors of different shapes,
    so its model carries the shapes and follows the broadcasting rule of
    torch: the shapes are aligned at their last dimension, two sizes are
    compatible when they are equal or one of them is one, and a dimension of
    size one is read at index zero. *)
Record ndarray : Type := mkNd {
  nd_shape : list nat;
  nd_at : list nat -> R
}.

(** Exceptions of the code of this part. *)
Inductive pyerr : Type :=
| IndexError
| RuntimeError
| NotImplementedError
| NameError (name : string)
| UnboundLocalError (name : string).

(** Both shapes are given from the last dimension to the first. *)
Fixpoint broadcast_aligned (s1 s2 : list nat) : option (list nat) :=
  match s1, s2 with
  | [], _ => Some s2
  | _, [] => Some s1
  | a :: s1', b :: s2' =>
      if (a =? b)%nat || (b =? 1)%nat
      then option_map (cons a) (broadcast_aligned s1' s2')
      else if (a =? 1)%nat
      then option_map (cons b) (broadcast_aligned s1' s2')
      else None
  end.

Definition broadcast_shapes (s1 s2 : list nat) : option (list nat) :=
  option_map (@rev nat) (broadcast_aligned (rev s1) (rev s2)).

(** The index at which an operand of shape [s] is read for the index [idx]
    of the result. *)
Definition broadcast_index (s : list nat) (idx : list nat) : list nat :=
  map (fun di => if (fst di =? 1)%nat then 0%nat else snd di)
      (combine s (skipn (List.length idx - List.length s) idx)).

Definition nd_binop (f : R -> R -> R) (a b : ndarray) : pyerr + ndarray :=
  match broadcast_shapes (nd_shape a) (nd_shape b) with
  | Some s =>
      inr (mkNd s (fun idx =>
                     f (nd_at a (broadcast_index (nd_shape a) idx))
                       (nd_at b (broadcast_index (nd_shape b) idx))))
  | None => inl RuntimeError
  end.

(** [v[:, None, None, None]] of a tensor of shape [(B,)]. *)
Definition nd_column (B : nat) (v : tvec) : ndarray :=
  mkNd [B; 1; 1; 1]%nat (fun idx => v (nth 0 idx 0%nat)).

(** A draw of shape [(B, H, W)]: entry [(j, h, w)] is entry [h * W + w] of
    sample [j] of the draw. *)
Definition nd_of_draw (B : nat) (im_shape : nat * nat) (z : tensor) : ndarray :=
  mkNd [B; fst im_shape; snd im_shape]
       (fun idx => z (nth 0 idx 0%nat)
                     (nth 1 idx 0 * snd im_shape + nth 2 idx 0)%nat).

(** [l[i]] for a Python integer [i]: a negative index counts from the end;
    outside [-len, len) the access raises [IndexError]. *)
Definition py_index (l : list R) (i : Z) : option R :=
  let len := Z.of_nat (List.length l) in
  if ((0 <=? i) && (i <? len))%Z then Some (nth (Z.to_nat i) l 0)
  else if ((- len <=? i) && (i <? 0))%Z then Some (nth (Z.to_nat (len + i)) l 0)
  else None.

(** ** [chain_simple_init] ([samplers/utils.py], lines 158-170)

    [t] is the vector with [batch_size] entries equal to
    [time_steps[start_time_step]]; [device] has no influence on the values. *)
Definition chain_simple_init
    (time_steps : list R) (sde : SDE) (filtbackproj : ndarray)
    (start_time_step : Z) (im_shape : nat * nat) (batch_size : nat)
    (device : string)
  : world -> (pyerr + ndarray) * world :=
  fun w =>
    match py_index time_steps start_time_step with
    | None => (inl IndexError, w)
    | Some tau =>
        let t : tvec := fun _ => tau in
        let std := nd_column batch_size (marginal_prob_std sde t) in
        let z := nd_of_draw batch_size im_shape (next_draw w) in
        let w' := mkWorld (fun k => rng w (S k)) (trace w ++ [EvRandn]) in
        match nd_binop Rmult z std with
        | inl e => (inl e, w')
        | inr noise => (nd_binop Rplus filtbackproj noise, w')
        end
    end.

(** ** The start of the chain in [get_standard_sampler]

    [ceil(float(args.pct_chain_elapsed) * int(args.num_steps))]
    ([exp_utils.py], lines 78, 92 and 102), in exact arithmetic.  The code
    rounds the product to a double before [ceil]: the two agree whenever
    the product is exact in doubles (a fraction of zero or of one, for
    instance), and the rounding never changes the sign of the product; a
    statement that needs more carries the rounding as a function. *)
Definition py_ceil (r : R) : Z := (1 - up (- r))%Z.

Definition start_time_step (pct_chain_elapsed : R) (num_steps : Z) : Z :=
  py_ceil (pct_chain_elapsed * IZR num_steps).

(** [init_chain_fn] ([exp_utils.py], lines 131-141): [None] unless the
    chain starts after the first time; the sampler calls the partial with
    the time grid. *)
Definition init_chain_fn
    (sde : SDE) (ray_trafo : RayTrafo) (filtbackproj : ndarray)
    (batch_size : nat) (device : string)
    (pct_chain_elapsed : R) (num_steps : Z)
  : option (list R -> world -> (pyerr + ndarray) * world) :=
  let start := start_time_step pct_chain_elapsed num_steps in
  if (0 <? start)%Z
  then Some (fun time_steps =>
               chain_simple_init time_steps sde filtbackproj start
                 (im_shape ray_trafo) batch_size device)
  else None.

(** ** The dataset and configuration selectors of [exp_utils.py]

    The datasets, loaders and configuration modules are not part of the
    sources at hand: a call to one of them is kept as the call it is. *)
Inductive argval : Type :=
| AInt (z : Z)
| AStr (s : string)
| ABool (b : bool)
| AConfig (field : string)       (* a value read from the configuration *)
| AObj (o : extval)
with extval : Type :=
| Call (callee : string) (args : list argval) (kw : list (string * argval))
| Method (receiver : extval) (name : string) (kw : list (string * argval)).

(** The names bound in the module [exp_utils]: its imports (lines 1-16) and
    its own functions. *)
Definition exp_utils_globals : list string :=
  ["os"; "time"; "torch"; "functools"; "ceil"; "Path";
   "VESDE"; "VPSDE"; "ExponentialMovingAverage"; "OpenAiUNetModel";
   "LoDoPabDatasetFromDival"; "EllipseDatasetFromDival"; "MayoDataset";
   "get_disk_dist_ellipses_dataset"; "get_walnut_data";
   "SimpleTrafo"; "get_walnut_2d_ray_trafo"; "simulate";
   "BaseSampler"; "Euler_Maruyama_sde_predictor"; "Langevin_sde_corrector";
   "chain_simple_init"; "decomposed_diffusion_sampling_sde_predictor";
   "conj_grad_closure";
   "get_standard_score"; "get_standard_sde"; "get_standard_sampler";
   "get_standard_ray_trafo"; "get_data_from_ground_truth";
   "get_standard_dataset"; "get_standard_train_dataset";
   "get_standard_configs"; "get_standard_path"]%string.

(** A call of a global name: the name is looked up first. *)
Definition call_global (name : string) (args : list argval)
    (kw : list (string * argval)) : pyerr + extval :=
  if existsb (String.eqb name) exp_utils_globals
  then inr (Call name args kw)
  else inl (NameError name).

(** Reading a local variable that no executed statement has bound. *)
Definition read_local {A} (name : string) (v : option A) : pyerr + A :=
  match v with
  | Some a => inr a
  | None => inl (UnboundLocalError name)
  end.

Section Selectors.

(** [str.lower] of Python. *)
Variable lower : string -> string.

(** [get_standard_train_dataset] (lines 214-248).  The fields of [config]
    that are only passed on are kept by name; the two that the function
    inspects are arguments. *)
Definition get_standard_train_dataset
    (data_name : string) (num_n_ellipse : Z) : pyerr + extval :=
  let name := lower data_name in
  let train_dl : pyerr + option extval :=
    if String.eqb name (lower "EllipseDatasetFromDival") then
      match call_global "EllipseDatasetFromDival" []
              [("impl"%string, AStr "astra_cuda")] with
      | inl e => inl e
      | inr ellipse_dataset =>
          inr (Some (Method ellipse_dataset "get_trainloader"
                       [("batch_size"%string, AConfig "training.batch_size");
                        ("num_data_loader_workers"%string, AInt 0)]))
      end
    else if String.eqb name (lower "DiskDistributedEllipsesDataset") then
      match
        (if (1 <? num_n_ellipse)%Z
         then call_global "get_disk_dist_ellipses_dataset" []
                [("fold"%string, AStr "train");
                 ("im_size"%string, AConfig "data.im_size");
                 ("length"%string, AConfig "data.length");
                 ("diameter"%string, AConfig "data.diameter");
                 ("max_n_ellipse"%string, AConfig "data.num_n_ellipse");
                 ("device"%string, AConfig "device")]
         else call_global "get_one_ellipses_dataset" []
                [("fold"%string, AStr "train");
                 ("im_size"%string, AConfig "data.im_size");
                 ("length"%string, AConfig "data.length");
                 ("diameter"%string, AConfig "data.diameter");
                 ("device"%string, AConfig "device")])
      with
      | inl e => inl e
      | inr dataset =>
          inr (Some (Call "torch.utils.data.DataLoader" [AObj dataset]
                       [("batch_size"%string, AInt 3);
                        ("shuffle"%string, ABool false);
                        ("num_workers"%string, AInt 16)]))
      end
    else if String.eqb name (lower "LoDoPabCT") then
      match call_global "LoDoPabDatasetFromDival" []
              [("im_size"%string, AConfig "data.im_size")] with
      | inl e => inl e
      | inr dataset =>
          inr (Some (Method dataset "get_trainloader"
                       [("batch_size"%string, AConfig "training.batch_size");
                        ("num_data_loader_workers"%string, AInt 16)]))
      end
    else inr None in
  match train_dl with
  | inl e => inl e
  | inr v => read_local "train_dl" v
  end.

(** [get_standard_configs] (lines 250-277).  [from m import get_config]
    binds the local name [get_config]; the printed lines are returned with
    the result. *)
Definition import_get_config (module : string) : extval :=
  Call (module ++ ".get_config") [] [].

Definition get_standard_configs
    (model_learned_on sde dataset : string)
  : (pyerr + (extval * extval)) * list string :=
  let first : (pyerr + option extval) * list string :=
    if String.eqb (lower model_learned_on) "ellipses" then
      (inr (Some (import_get_config "configs.disk_ellipses_configs")), [])
    else if String.eqb (lower model_learned_on) "lodopab" then
      if String.eqb (lower sde) "vesde" then
        (inr (Some (import_get_config "configs.lodopab_configs")),
         ["Loading Variance Exploding SDE model"%string])
      else if String.eqb (lower sde) "vpsde" then
        (inr (Some (import_get_config "configs.lodopab_vpsde_configs")),
         ["Loading Variance Preserving SDE model"%string])
      else (inr None, [])
    else (inl NotImplementedError, []) in
  match first with
  | (inl e, out) => (inl e, out)
  | (inr get_config, out) =>
      match read_local "get_config" get_config with
      | inl e => (inl e, out)
      | inr config =>
          let second : pyerr + extval :=
            if String.eqb (lower dataset) "ellipses" then
              inr (import_get_config "configs.disk_ellipses_configs")
            else if String.eqb (lower dataset) "lodopab" then
              inr (import_get_config "configs.lodopab_configs")
            else if String.eqb (lower dataset) "walnut" then
              inr (import_get_config "configs.walnut_configs")
            else if String.eqb (lower dataset) "mayo" then
              inr (import_get_config "configs.mayo_configs")
            else inl NotImplementedError in
          match second with
          | inl e => (inl e, out)
          | inr dataconfig => (inr (config, dataconfig), out)
          end
      end
  end.

End Selectors.

(** * The exceptional values of the arithmetic

    Lines 50-57 of the Euler-Maruyama predictor in Tweedy mode with a
    data-fit function, for one entry, over the reals extended by the
    infinities and NaN with the rules of IEEE arithmetic (rounding and the
    sign of zero left out): [0 * inf] and [inf - inf] are NaN, NaN is
    absorbing, and the reciprocal of zero is [inf]. *)
Inductive xreal : Type :=
| Fin (r : R)
| PInf
| NInf
| NaN.

(** A finite factor times an infinity of the given sign. *)
Definition xscale_inf (r : R) (positive : bool) : xreal :=
  if Req_EM_T r 0 then NaN
  else if Rlt_dec 0 r then (if positive then PInf else NInf)
  else (if positive then NInf else PInf).

Definition xmul (a b : xreal) : xreal :=
  match a, b with
  | NaN, _ | _, NaN => NaN
  | Fin x, Fin y => Fin (x * y)
  | Fin x, PInf | PInf, Fin x => xscale_inf x true
  | Fin x, NInf | NInf, Fin x => xscale_inf x false
  | PInf, PInf | NInf, NInf => PInf
  | PInf, NInf | NInf, PInf => NInf
  end.

Definition xadd (a b : xreal) : xreal :=
  match a, b with
  | NaN, _ | _, NaN => NaN
  | Fin x, Fin y => Fin (x + y)
  | PInf, NInf | NInf, PInf => NaN
  | PInf, _ | _, PInf => PInf
  | NInf, _ | _, NInf => NInf
  end.

Definition xopp (a : xreal) : xreal :=
  match a with
  | Fin x => Fin (- x)
  | PInf => NInf
  | NInf => PInf
  | NaN => NaN
  end.

Definition xsub (a b : xreal) : xreal := xadd a (xopp b).

(** [a.pow(-1)] *)
Definition xinv (a : xreal) : xreal :=
  match a with
  | Fin x => if Req_EM_T x 0 then PInf else Fin (/ x)
  | PInf | NInf => Fin 0
  | NaN => NaN
  end.

(** The entry of [x_mean] from the entries of [x], of the score [s], of
    [diffusion] and of [nloglik_grad], and from [step_size], [penalty] and
    the loss. *)
Definition tweedy_x_mean_entry
    (x s diffusion step_size penalty nloglik_grad loss : xreal) : xreal :=
  let eta := xmul (xmul diffusion diffusion) step_size in
  let update := xmul s eta in
  let x_mean := xadd x update in
  let datafit := xmul nloglik_grad eta in
  let datafitscale := xinv loss in
  xsub x_mean (xmul (xmul penalty datafit) datafitscale).

(** * Vocabulary of the statements *)

(** The contract of the predictor and of the corrector on their data-fit
    arguments: [if nloglik is not None: assert (datafitscale is not None)
    and (penalty is not None)]. *)
Definition contract_ok
    (nloglik : option nloglik_fn) (datafitscale penalty : option R) : bool :=
  match nloglik with
  | Some _ => is_some datafitscale && is_some penalty
  | None => true
  end.

(** The forward operator and its adjoint are adjoint to each other for the
    inner products (the sums of the products of the entries) of batches of
    [B] images of [N] pixels and of [B] measurements of [M] entries. *)
Definition inner (B K : nat) (u v : tensor) : R :=
  sum_upto B (fun b => sum_upto K (fun k => u b k * v b k)).

Definition adjoint_pair (B N M : nat) (ray_trafo : RayTrafo) : Prop :=
  forall x y : tensor,
    inner B M (trafo ray_trafo x) y = inner B N x (trafo_adjoint ray_trafo y).


(** The outside calls of one predictor or corrector step, in order: with a
    data-fit function it is evaluated once and differentiated once. *)
Definition step_events (with_datafit : bool) : list event :=
  [EvRequiresGrad; EvScore]
  ++ (if with_datafit then [EvNloglik; EvAutograd] else [])
  ++ [EvRandn].

(** * Concrete inputs

    A one-sample, one-pixel problem ([B = H = W = 1]) on which the
    definitions above are evaluated below. *)

Definition tconst (a : R) : tensor := fun _ _ => a.

(** A score network with a constant output. *)
Definition score_const (a : R) : score_fn := fun _ _ => tconst a.

(** A schedule with [marginal_prob_std = diffusion_coeff = 1]. *)
Definition sde_unit : SDE := mkSDE (fun _ _ => 1) (fun _ _ => 1).

Definition time_one : tvec := fun _ => 1.

(** A generator whose draws are all zero, and no call made yet. *)
Definition quiet_world : world := mkWorld (fun _ => tconst 0) [].

(** The data-fit function [x |-> x[0,0,0,0]] and its gradient, the constant
    one. *)
Definition nloglik_entry : nloglik_fn := fun x => x 0%nat 0%nat.
Definition autograd_entry : (tensor -> R) -> tensor -> tensor :=
  fun _ _ => tconst 1.

(** The identity as forward operator. *)
Definition ray_identity : RayTrafo :=
  mkRayTrafo (fun v => v) (fun v => v) (1%nat, 1%nat).

(** A solver for the examples: the first iteration of conjugate gradients
    from the initial guess (a steepest-descent step with exact line search),
    which is exact for one unknown.  It evaluates the product at the guess
    and at the residual, and lets an exception of the product through. *)
Definition dot (N B : nat) (u v : mat) : R :=
  sum_upto N (fun i => sum_upto B (fun j => u i j * v i j)).

Definition one_step_cg (N B : nat)
    (matmul_closure : mat -> exn + mat) (rhs initial_guess : mat)
    (kw : list (string * Z)) : exn + (mat * unit) :=
  match matmul_closure initial_guess with
  | inl e => inl e
  | inr Ag =>
      let r := tsub rhs Ag in
      match matmul_closure r with
      | inl e => inl e
      | inr Ar =>
          let alpha := dot N B r r / dot N B r Ar in
          inr (tadd initial_guess (lscale alpha r), tt)
      end
  end.

(** [str.lower] on the letters A-Z; other characters are kept. *)
Definition ascii_lower_char (c : Ascii.ascii) : Ascii.ascii :=
  let n := Ascii.nat_of_ascii c in
  if ((65 <=? n) && (n <=? 90))%nat then Ascii.ascii_of_nat (n + 32) else c.

Fixpoint ascii_lower (s : string) : string :=
  match s with
  | EmptyString => EmptyString
  | String c s' => String (ascii_lower_char c) (ascii_lower s')
  end.

(** A reconstruction of shape [(1, 1, 2, 2)] with all entries zero, and a
    time grid of three times. *)
Definition fbp_zero : ndarray := mkNd [1; 1; 2; 2]%nat (fun _ => 0).
Definition three_times : list R := [1; 1 / 2; 1 / 100].

(** A product that always raises. *)
Definition failing_closure : mat -> exn + mat := fun _ => inl AttributeError.

(** * Properties *)

Ltac run_calls :=
  unfold Euler_Maruyama_VE_sde_predictor, Langevin_VE_sde_corrector,
    decomposed_diffusion_sampling_VE_sde_predictor, langevin_iteration,
    call_score, call_nloglik, autograd_grad, call_linear_cg, randn_like,
    py_assert, as_float, emit, bind, ret, raise;
  cbn [is_some andb fst snd langevin_loop Z.to_nat].

(** Entry-wise goals: expose the real-number expression. *)
Ltac entrywise :=
  unfold teq, tadd, tsub, tmul, tdiv, topp, tpow2, tsqrt, lscale, rscale,
    rsub_scalar, vsub_scalar, unsqueeze, unflatten, transpose, next_draw
    in *;
  cbn [rng trace fst snd] in *.

(** Goals on the one-pixel inputs. *)
Ltac one_pixel :=
  unfold unflatten, one_step_cg, dot, conj_grad_closure, reshape_flat,
    row_major, ray_identity, score_const, sde_unit, time_one, tconst,
    c1em5 in *;
  cbn [sum_upto trafo trafo_adjoint marginal_prob_std diffusion_coeff
       fst snd] in *;
  entrywise.

Section Properties.

Context (B H W : nat).
Context (autograd : (tensor -> R) -> tensor -> tensor).
Context (cg_aux : Type).
Context (linear_cg : closure -> mat -> mat -> cg_options -> exn + (mat * cg_aux)).

Local Abbreviation EM := (Euler_Maruyama_VE_sde_predictor autograd).
Local Abbreviation Langevin := (Langevin_VE_sde_corrector B H W autograd).
Local Abbreviation Decomposed :=
  (decomposed_diffusion_sampling_VE_sde_predictor B H W cg_aux linear_cg).

(** C1.  Without a data-fit function and with [aTweedy] false, the
    Euler-Maruyama predictor returns
    [x_mean = x + score(x,t) * diffusion_coeff(t)^2 * step_size] and
    [x_next = x_mean + sqrt(diffusion_coeff(t)^2 * step_size) * z], where [z]
    is the draw that [torch.randn_like] takes from the generator. *)
Theorem EM_plain_update :
  forall (score : score_fn) (sde : SDE) (x : tensor) (t : tvec) (step_size : R)
         (datafitscale penalty : option R) (w : world),
  exists x_next x_mean w',
    EM score sde x t step_size None datafitscale penalty false w
      = (inr (x_next, x_mean), w')
    /\ (forall b n,
          x_mean b n
          = x b n + score x t b n * diffusion_coeff sde t b ^ 2 * step_size)
    /\ (forall b n,
          x_next b n
          = x_mean b n
            + sqrt (diffusion_coeff sde t b ^ 2 * step_size) * next_draw w b n).
Proof.
  intros. run_calls.
  eexists _, _, _. split; [reflexivity|].
  split; intros b n; entrywise; ring.
Qed.

(** C4.  A call of the Euler-Maruyama predictor or of the Langevin corrector
    that supplies a data-fit function but leaves [datafitscale] or [penalty]
    out raises [AssertionError], and does so before anything else happens:
    the generator and the trace of outside calls are those of the caller. *)
Theorem datafit_contract_violation :
  forall (score : score_fn) (sde : SDE) (x : tensor) (t : tvec) (step_size : R)
         (f : nloglik_fn) (datafitscale penalty : option R) (aTweedy : bool)
         (corrector_steps : Z) (snr : R) (w : world),
    datafitscale = None \/ penalty = None ->
    EM score sde x t step_size (Some f) datafitscale penalty aTweedy w
      = (inl AssertionError, w)
    /\ Langevin score sde x t (Some f) datafitscale penalty corrector_steps snr w
      = (inl AssertionError, w).
Proof.
  intros until w. intros [-> | ->]; run_calls.
  - split; reflexivity.
  - destruct datafitscale; split; reflexivity.
Qed.

(** C5 (amended).  With [step_size = 0], whenever the Euler-Maruyama
    predictor returns, the returned [x_mean] has the entries of the input
    [x], in both modes and with or without a data-fit function, provided
    that in Tweedy mode with a data-fit function the loss is not zero (at a
    zero loss [datafitscale] is infinite and [x_mean] is NaN).  Without a
    data-fit function the call always returns. *)
Theorem EM_zero_step_mean :
  forall (score : score_fn) (sde : SDE) (x : tensor) (t : tvec)
         (nloglik : option nloglik_fn) (datafitscale penalty : option R)
         (aTweedy : bool) (w : world),
    (forall f, nloglik = Some f -> aTweedy = true ->
               f (tadd x (tmul (score x t)
                               (tpow2 (unsqueeze (marginal_prob_std sde t)))))
               <> 0) ->
    (forall x_next x_mean w',
       EM score sde x t 0 nloglik datafitscale penalty aTweedy w
       = (inr (x_next, x_mean), w') ->
       x_mean =t= x)
    /\ (nloglik = None ->
        exists x_next x_mean w',
          EM score sde x t 0 nloglik datafitscale penalty aTweedy w
          = (inr (x_next, x_mean), w')).
Proof.
  intros until w. intros Hloss. split.
  - intros x_next x_mean w'.
    destruct nloglik as [f|], datafitscale as [d|], penalty as [p|], aTweedy;
      run_calls; cbn [fst snd]; intros Hrun;
      try discriminate Hrun; injection Hrun as _ <- _;
      intros b n; entrywise; ring.
  - intros ->. run_calls. eexists _, _, _. reflexivity.
Qed.

(** C9.  The decomposed predictor does not depend on its [datafitscale]
    argument: two calls that differ in it alone give the same result (both
    returned tensors, and the same effects). *)
Theorem decomposed_ignores_datafitscale :
  forall (score : score_fn) (sde : SDE) (x rhs : tensor) (t : tvec)
         (cl : closure) (eta step_size : R) (kw : cg_options)
         (d1 d2 : option R) (w : world),
    Decomposed score sde x rhs t cl eta step_size kw d1 w
    = Decomposed score sde x rhs t cl eta step_size kw d2 w.
Proof. intros. reflexivity. Qed.

(** C10 (amended).  With [corrector_steps = 0] the Langevin corrector
    returns its input [x] and makes no outside call (no score evaluation, no
    draw from the generator) in every call that keeps the data-fit contract;
    a call that breaks the contract raises [AssertionError] instead. *)
Theorem Langevin_zero_steps :
  forall (score : score_fn) (sde : SDE) (x : tensor) (t : tvec)
         (nloglik : option nloglik_fn) (datafitscale penalty : option R)
         (snr : R) (w : world),
    Langevin score sde x t nloglik datafitscale penalty 0 snr w
    = (if contract_ok nloglik datafitscale penalty
       then inr x else inl AssertionError, w).
Proof.
  intros.
  destruct nloglik as [f|], datafitscale as [d|], penalty as [p|];
    reflexivity.
Qed.

(** C3 (amended).  When a data-fit function is supplied, the quantity that
    the Euler-Maruyama predictor subtracts from [x_mean = x + s * eta] is
    [penalty * (gradient * eta) * datafitscale]: the data-fit gradient
    scaled by the penalty, by the [datafitscale] factor and also by
    [eta = diffusion_coeff(t)^2 * step_size]; in Tweedy mode [datafitscale]
    is replaced by the reciprocal of the loss, which is then the data-fit
    function at the Tweedy estimate, differentiated through the score. *)
Theorem EM_datafit_correction :
  forall (score : score_fn) (sde : SDE) (x : tensor) (t : tvec) (step_size : R)
         (f : nloglik_fn) (datafitscale penalty : R) (aTweedy : bool)
         (w : world),
    let std2 := tpow2 (unsqueeze (marginal_prob_std sde t)) in
    let objective x' :=
      f (if aTweedy then tadd x' (tmul (score x' t) std2) else x') in
    let loss := objective x in
    let gradient := autograd objective x in
    let eta b := diffusion_coeff sde t b ^ 2 * step_size in
    let scale := if aTweedy then / loss else datafitscale in
    exists x_next x_mean w',
      EM score sde x t step_size (Some f) (Some datafitscale) (Some penalty)
         aTweedy w
        = (inr (x_next, x_mean), w')
      /\ forall b n,
           (x b n + score x t b n * eta b) - x_mean b n
           = penalty * (gradient b n * eta b) * scale.
Proof.
  intros. run_calls.
  destruct aTweedy; cbn; eexists _, _, _; (split; [reflexivity|]);
    intros b n; subst std2 objective loss gradient eta scale;
    entrywise; ring.
Qed.

(** C6.  With [eta = 0] the decomposed predictor is deterministic: two calls
    with the same state, time, step size, score and solver, run from
    generators that hold different draws, return the same [x_next] (entry by
    entry) and the same denoised estimate, or fail with the same exception
    of the solver.  The stochastic term vanishes: [x_next] is the estimate
    plus the deterministic term, [- std(t - step) * std(t) * sqrt(1 - 0) *
    s]. *)
Theorem decomposed_eta_zero_deterministic :
  forall (score : score_fn) (sde : SDE) (x rhs : tensor) (t : tvec)
         (cl : closure) (step_size : R) (kw : cg_options)
         (datafitscale : option R) (w1 w2 : world),
    let std_t := marginal_prob_std sde t in
    let std_tminus1 := marginal_prob_std sde (vsub_scalar t step_size) in
    let beta b := 1 - std_tminus1 b ^ 2 / std_t b ^ 2 in
    match fst (Decomposed score sde x rhs t cl 0 step_size kw datafitscale w1),
          fst (Decomposed score sde x rhs t cl 0 step_size kw datafitscale w2)
    with
    | inr (x_next1, xhat1), inr (x_next2, xhat2) =>
        x_next1 =t= x_next2 /\ xhat1 = xhat2
        /\ forall b n,
             x_next1 b n
             = xhat1 b n
               + - std_tminus1 b * std_t b * sqrt (1 - beta b ^ 2 * 0 ^ 2)
                 * score x t b n
    | inl e1, inl e2 => e1 = e2
    | _, _ => False
    end.
Proof.
  intros. run_calls.
  destruct (linear_cg cl _ _ kw) as [e | [X aux]]; cbn [fst snd].
  - reflexivity.
  - split; [|split; [reflexivity|]];
      intros b n; subst std_t std_tminus1 beta; entrywise; ring.
Qed.

(** C7 (amended).  Every iteration of the Langevin corrector uses the step
    [2 * (snr * sqrt(1*H*W) / norm)^2], where [norm] is the mean over the
    batch of the Euclidean norms of the samples of the drift, and the drift
    is the score, minus [penalty * gradient * datafitscale] when a data-fit
    function is present; the state becomes
    [x + step * drift + sqrt(2 * step) * z] with [z] the next draw of the
    generator, and the remaining iterations run from that state. *)
Theorem Langevin_iteration_update :
  forall (score : score_fn) (sde : SDE) (x : tensor) (t : tvec)
         (nloglik : option nloglik_fn) (datafitscale penalty : option R)
         (k : nat) (snr : R) (w : world),
    contract_ok nloglik datafitscale penalty = true ->
    let drift : tensor :=
      match nloglik, penalty, datafitscale with
      | Some f, Some p, Some d =>
          fun b n => score x t b n - p * autograd f x b n * d
      | _, _, _ => score x t
      end in
    let step :=
      2 * (snr * sqrt (INR (1 * H * W)) / mean_sample_norm B H W drift) ^ 2 in
    exists x' w',
      langevin_iteration B H W autograd score x t nloglik
        datafitscale penalty snr w = (inr x', w')
      /\ (forall b n,
            x' b n
            = x b n + step * drift b n + sqrt (2 * step) * next_draw w b n)
      /\ Langevin score sde x t nloglik datafitscale penalty
           (Z.of_nat (S k)) snr w
         = Langevin score sde x' t nloglik datafitscale penalty
             (Z.of_nat k) snr w'.
Proof.
  intros until w. intros Hok drift step.
  assert (Hloop : forall x0 w0,
            Langevin score sde x0 t nloglik datafitscale penalty
              (Z.of_nat k) snr w0
            = langevin_loop B H W autograd k score x0 t nloglik
                datafitscale penalty snr w0).
  { intros. unfold Langevin_VE_sde_corrector, contract_ok in *.
    rewrite Nat2Z.id.
    destruct nloglik; [rewrite Hok|]; reflexivity. }
  assert (Hstep : forall x' w',
            langevin_iteration B H W autograd score x t nloglik
              datafitscale penalty snr w = (inr x', w') ->
            Langevin score sde x t nloglik datafitscale penalty
              (Z.of_nat (S k)) snr w
            = Langevin score sde x' t nloglik datafitscale penalty
                (Z.of_nat k) snr w').
  { intros x' w' Hit. rewrite Hloop.
    unfold Langevin_VE_sde_corrector, contract_ok in *.
    rewrite Nat2Z.id. cbn [langevin_loop].
    destruct nloglik; [rewrite Hok|];
      unfold py_assert, bind, ret; rewrite Hit; reflexivity. }
  destruct nloglik as [f|];
    [destruct datafitscale as [d|], penalty as [p|]; try discriminate|];
    (eexists _, _; split; [run_calls; reflexivity|]; split;
     [intros b n; subst step drift; entrywise; reflexivity
     |apply Hstep; run_calls; reflexivity]).
Qed.

(** C2 (amended).  The decomposed predictor hands the solver the product
    [v |-> eps * At(A v) + v] of [conj_grad_closure], the right-hand side
    [1e-5 * rhs + xhat0] with the literal constant [1e-5] (whatever [eps]
    is) and the initial guess [xhat0], the last two through the row-major
    reshape to [(H*W, B)].  So when the solver returns a solution [X] of the
    system it was given, the denoised estimate [xhat] (the samples are the
    columns of [X]) solves
    [eps * At(A xhat) + xhat = 1e-5 * At y + xhat0], the right-hand side
    read in row-major order at position [n * B + b]; for a batch of one
    sample that is the equation between images. *)
Theorem decomposed_data_consistency_system :
  forall (score : score_fn) (sde : SDE) (x : tensor) (t : tvec)
         (ray_trafo : RayTrafo) (y : tensor) (eps eta step_size : R)
         (kw : cg_options) (datafitscale : option R) (w : world)
         (X : mat) (aux : cg_aux),
    let Aty := trafo_adjoint ray_trafo y in
    let xhat0 := tadd x (tmul (score x t)
                              (tpow2 (unsqueeze (marginal_prob_std sde t)))) in
    let product : closure := fun v => inr (conj_grad_closure v ray_trafo eps) in
    let system_rhs :=
      tadd (rscale (reshape_flat B H W Aty) c1em5) (reshape_flat B H W xhat0) in
    linear_cg product system_rhs (reshape_flat B H W xhat0) kw = inr (X, aux) ->
    (forall i j, (i < H * W)%nat -> (j < B)%nat ->
                 conj_grad_closure X ray_trafo eps i j = system_rhs i j) ->
    exists x_next xhat w',
      Decomposed score sde x Aty t product eta step_size kw datafitscale w
        = (inr (x_next, xhat), w')
      /\ xhat = unflatten X
      /\ (forall b n, (b < B)%nat -> (n < H * W)%nat ->
            eps * trafo_adjoint ray_trafo (trafo ray_trafo xhat) b n + xhat b n
            = c1em5 * row_major H W Aty (n * B + b)
              + row_major H W xhat0 (n * B + b))
      /\ (B = 1%nat -> forall n, (n < H * W)%nat ->
            eps * trafo_adjoint ray_trafo (trafo ray_trafo xhat) 0%nat n
              + xhat 0%nat n
            = c1em5 * Aty 0%nat n + xhat0 0%nat n).
Proof.
  intros until aux. intros Aty xhat0 product system_rhs Hcg Hsol.
  assert (Hsys : forall b n, (b < B)%nat -> (n < H * W)%nat ->
            eps * trafo_adjoint ray_trafo (trafo ray_trafo (unflatten X)) b n
              + unflatten X b n
            = c1em5 * row_major H W Aty (n * B + b)
              + row_major H W xhat0 (n * B + b)).
  { intros b n Hb Hn. specialize (Hsol n b Hn Hb).
    unfold conj_grad_closure in Hsol. subst system_rhs.
    unfold reshape_flat, row_major, unflatten in *. entrywise.
    rewrite Hsol. ring. }
  eexists _, (unflatten X), _.
  split.
  { run_calls. cbn [rng trace].
    change (linear_cg _ _ _ kw)
      with (linear_cg product system_rhs (reshape_flat B H W xhat0) kw).
    rewrite Hcg. cbn. reflexivity. }
  split; [reflexivity|]. split; [exact Hsys|].
  intros HB n Hn. rewrite (Hsys 0%nat n) by lia.
  unfold row_major. subst B. rewrite Nat.mul_1_r, Nat.add_0_r.
  rewrite Nat.div_small, Nat.mod_small by lia. reflexivity.
Qed.

(** C8.  The closure that [get_standard_sampler] assembles for method
    ['dds'] binds the keyword [gamma], which [conj_grad_closure(x,
    ray_trafo, eps)] does not accept: every call of the closure raises
    [TypeError] (unexpected keyword argument 'gamma'); and with a solver
    that evaluates the product at its initial guess and lets its exception
    through, the assembled predictor fails with that [TypeError] in every
    step. *)
Theorem dds_closure_raises :
  (forall (ray_trafo : RayTrafo) (gamma : R) (v : mat),
     as_closure (conj_grad_closure_partial ray_trafo gamma) v
     = inl (TypeError (UnexpectedKeyword "gamma")))
  /\ ((forall (cl : closure) (rhs guess : mat) (kw : cg_options) (e : exn),
         cl guess = inl e -> linear_cg cl rhs guess kw = inl e) ->
      forall (score : score_fn) (sde : SDE) (ray_trafo : RayTrafo)
             (observation : tensor) (gamma : R) (x : tensor) (t : tvec)
             (eta step_size : R) (datafitscale : option R) (w : world),
        fst (dds_predictor B H W cg_aux linear_cg score sde ray_trafo
               observation gamma x t eta step_size datafitscale w)
        = inl (TypeError (UnexpectedKeyword "gamma"))).
Proof.
  assert (Hcl : forall rt gamma v,
            as_closure (conj_grad_closure_partial rt gamma) v
            = inl (TypeError (UnexpectedKeyword "gamma"))).
  { intros. reflexivity. }
  split; [exact Hcl|].
  intros Hcg. intros. unfold dds_predictor. run_calls.
  erewrite Hcg by apply Hcl. reflexivity.
Qed.

End Properties.

(** * The properties on the concrete inputs *)

(** C4 on a call without [datafitscale] and [penalty]. *)
Lemma datafit_contract_violation_witness :
  Euler_Maruyama_VE_sde_predictor autograd_entry (score_const 3) sde_unit
    (tconst 0) time_one 2 (Some nloglik_entry) None None false quiet_world
  = (inl AssertionError, quiet_world)
  /\ Langevin_VE_sde_corrector 1 1 1 autograd_entry (score_const 3) sde_unit
       (tconst 0) time_one (Some nloglik_entry) None None 5 1 quiet_world
     = (inl AssertionError, quiet_world).
Proof.
  apply (datafit_contract_violation 1 1 1 autograd_entry).
  left. reflexivity.
Defined.

(** C10 as stated fails: with zero corrector steps, a data-fit function and
    no [penalty], the corrector raises instead of returning [x]. *)
Lemma Langevin_zero_steps_may_raise :
  fst (Langevin_VE_sde_corrector 1 1 1 autograd_entry (score_const 3) sde_unit
         (tconst 0) time_one (Some nloglik_entry) (Some 1) None 0 1
         quiet_world)
  = inl AssertionError
  /\ fst (Langevin_VE_sde_corrector 1 1 1 autograd_entry (score_const 3)
            sde_unit (tconst 0) time_one (Some nloglik_entry) (Some 1) None 0 1
            quiet_world)
     <> inr (tconst 0).
Proof.
  split; [reflexivity | discriminate].
Qed.

(** C3 as stated fails: with [diffusion_coeff = 1] and [step_size = 2]
    ([eta = 2]), gradient, penalty and [datafitscale] all one, the predictor
    subtracts [2] from [x + s * eta], not [penalty * datafitscale * gradient
    = 1]. *)
Lemma EM_correction_is_scaled_by_eta :
  exists x_next x_mean w',
    Euler_Maruyama_VE_sde_predictor autograd_entry (score_const 0) sde_unit
      (tconst 0) time_one 2 (Some nloglik_entry) (Some 1) (Some 1) false
      quiet_world
    = (inr (x_next, x_mean), w')
    /\ (tconst 0 0%nat 0%nat
        + score_const 0 (tconst 0) time_one 0%nat 0%nat
          * (diffusion_coeff sde_unit time_one 0%nat ^ 2 * 2))
       - x_mean 0%nat 0%nat
       <> 1 * 1 * autograd_entry nloglik_entry (tconst 0) 0%nat 0%nat.
Proof.
  run_calls. eexists _, _, _. split; [reflexivity|].
  entrywise. unfold score_const, autograd_entry, tconst, sde_unit.
  cbn [diffusion_coeff]. lra.
Qed.

(** The norm of the corrector on a one-sample, one-pixel state. *)
Lemma mean_sample_norm_one_pixel (g : tensor) :
  0 <= g 0%nat 0%nat -> mean_sample_norm 1 1 1 g = g 0%nat 0%nat.
Proof.
  intros Hg. unfold mean_sample_norm, numel_per_sample.
  cbn [Nat.mul Nat.add sum_upto INR].
  replace (0 + g 0%nat 0%nat ^ 2) with (g 0%nat 0%nat ^ 2) by ring.
  rewrite sqrt_pow2 by exact Hg. field.
Qed.

(** C7 as stated fails: with score [3], gradient [1], [penalty = 1] and
    [datafitscale = 2] the drift of the code is [3 - 1*1*2 = 1] and its step
    is [2], so the state moves from [0] to [2]; the score minus the
    penalty-scaled gradient is [2], which would give the step [1/2] and the
    state [1]. *)
Lemma Langevin_drift_uses_datafitscale :
  exists x' w',
    langevin_iteration 1 1 1 autograd_entry (score_const 3) (tconst 0)
      time_one (Some nloglik_entry) (Some 2) (Some 1) 1 quiet_world
    = (inr x', w')
    /\ x' 0%nat 0%nat = 2
    /\ let drift :=
         tsub (score_const 3 (tconst 0) time_one)
              (lscale 1 (autograd_entry nloglik_entry (tconst 0))) in
       let step :=
         2 * (1 * sqrt (INR (1 * 1 * 1)) / mean_sample_norm 1 1 1 drift) ^ 2 in
       let claimed :=
         tconst 0 0%nat 0%nat + step * drift 0%nat 0%nat
         + sqrt (2 * step) * next_draw quiet_world 0%nat 0%nat in
       claimed = 1 /\ x' 0%nat 0%nat <> claimed.
Proof.
  run_calls. eexists _, _. split; [reflexivity|].
  assert (Hone : sqrt (INR (1 * 1 * 1)) = 1)
    by (cbn [Nat.mul Nat.add INR]; apply sqrt_1).
  cbv zeta.
  match goal with |- ?a = 2 /\ (?c = 1 /\ _) =>
    assert (E1 : a = 2); [| assert (E2 : c = 1);
      [| rewrite E1, E2; repeat split; lra]]
  end.
  - unfold tadd at 1 2, lscale at 1 2. unfold numel_per_sample.
    rewrite Hone, mean_sample_norm_one_pixel;
      unfold tsub, rscale, lscale, score_const, autograd_entry, tconst,
        next_draw, quiet_world; cbn [rng]; [|lra].
    rewrite Rmult_0_r. field.
  - rewrite Hone, mean_sample_norm_one_pixel;
      unfold tsub, rscale, lscale, score_const, autograd_entry, tconst,
        next_draw, quiet_world; cbn [rng]; [|lra].
    rewrite Rmult_0_r. field.
Qed.

(** C2 as stated fails: with the identity as forward operator, weight
    [lambda = 1], measurement [y = 1] and [xhat0 = 0], the solver returns the
    exact solution [xhat = 1e-5 / 2] of the system it is given,
    [lambda * At(A xhat) + xhat = 1e-5 * At y + xhat0]; that [xhat] does not
    solve [(lambda I + AtA) xhat = lambda * At y + xhat0], whose right-hand
    side is [1]. *)
Lemma decomposed_rhs_has_fixed_constant :
  let lambda := 1 in
  let y := tconst 1 in
  let xhat0 :=
    tadd (tconst 0)
         (tmul (score_const 0 (tconst 0) time_one)
               (tpow2 (unsqueeze (marginal_prob_std sde_unit time_one)))) in
  exists x_next xhat w',
    decomposed_diffusion_sampling_VE_sde_predictor 1 1 1 unit (one_step_cg 1 1)
      (score_const 0) sde_unit (tconst 0) (trafo_adjoint ray_identity y)
      time_one (fun v => inr (conj_grad_closure v ray_identity lambda))
      1 1 [] None quiet_world
    = (inr (x_next, xhat), w')
    /\ xhat 0%nat 0%nat = c1em5 / 2
    /\ conj_grad_closure (transpose xhat) ray_identity lambda 0%nat 0%nat
       = c1em5 * trafo_adjoint ray_identity y 0%nat 0%nat + xhat0 0%nat 0%nat
    /\ lambda * xhat 0%nat 0%nat
       + trafo_adjoint ray_identity (trafo ray_identity xhat) 0%nat 0%nat
       <> lambda * trafo_adjoint ray_identity y 0%nat 0%nat + xhat0 0%nat 0%nat.
Proof.
  cbv zeta. run_calls. unfold one_step_cg. cbv beta iota.
  eexists _, _, _. split; [reflexivity|].
  cbn [fst].
  match goal with |- ?a = ?v /\ _ => assert (E : a = v) end.
  { one_pixel. field. }
  repeat split.
  - exact E.
  - revert E. one_pixel. intros E. rewrite E. field.
  - revert E. one_pixel. intros E. rewrite E. lra.
Qed.

(** C2 (amended) on the same one-pixel problem: the solver solves the system
    it is given, and the estimate satisfies
    [eps * At(A xhat) + xhat = 1e-5 * At y + xhat0]. *)
Lemma decomposed_data_consistency_system_witness :
  exists x_next xhat w',
    decomposed_diffusion_sampling_VE_sde_predictor 1 1 1 unit (one_step_cg 1 1)
      (score_const 0) sde_unit (tconst 0)
      (trafo_adjoint ray_identity (tconst 1)) time_one
      (fun v => inr (conj_grad_closure v ray_identity 1))
      1 1 [] None quiet_world
    = (inr (x_next, xhat), w')
    /\ 1 * trafo_adjoint ray_identity (trafo ray_identity xhat) 0%nat 0%nat
       + xhat 0%nat 0%nat
       = c1em5 * trafo_adjoint ray_identity (tconst 1) 0%nat 0%nat
         + tadd (tconst 0)
             (tmul (score_const 0 (tconst 0) time_one)
                (tpow2 (unsqueeze (marginal_prob_std sde_unit time_one))))
             0%nat 0%nat.
Proof.
  destruct (decomposed_data_consistency_system 1 1 1 unit (one_step_cg 1 1)
              (score_const 0) sde_unit (tconst 0) time_one ray_identity
              (tconst 1) 1 1 1 [] None quiet_world _ tt eq_refl)
    as (x_next & xhat & w' & Hrun & _ & _ & Hone).
  - intros i j Hi Hj.
    assert (i = 0%nat) by lia. assert (j = 0%nat) by lia. subst i j.
    one_pixel. field.
  - exists x_next, xhat, w'. split; [exact Hrun|].
    apply Hone; [reflexivity | lia].
Defined.

(** C8 with the one-step solver, which evaluates the product at the initial
    guess first: the predictor assembled for ['dds'] fails in its step. *)
Lemma dds_closure_raises_witness :
  fst (dds_predictor 1 1 1 unit (one_step_cg 1 1) (score_const 0) sde_unit
         ray_identity (tconst 1) 1 (tconst 0) time_one 0 1 None quiet_world)
  = inl (TypeError (UnexpectedKeyword "gamma")).
Proof.
  apply (proj2 (dds_closure_raises 1 1 1 unit (one_step_cg 1 1))).
  intros cl rhs guess kw e Hcl. unfold one_step_cg. rewrite Hcl. reflexivity.
Defined.

(** C7 (amended) on the call of the example above: one iteration, then the
    corrector with the remaining steps from the new state. *)
Lemma Langevin_iteration_update_witness :
  contract_ok (Some nloglik_entry) (Some 2) (Some 1) = true
  /\ exists x' w',
       langevin_iteration 1 1 1 autograd_entry (score_const 3) (tconst 0)
         time_one (Some nloglik_entry) (Some 2) (Some 1) 1 quiet_world
       = (inr x', w')
       /\ Langevin_VE_sde_corrector 1 1 1 autograd_entry (score_const 3)
            sde_unit (tconst 0) time_one (Some nloglik_entry) (Some 2)
            (Some 1) 1 1 quiet_world
          = Langevin_VE_sde_corrector 1 1 1 autograd_entry (score_const 3)
              sde_unit x' time_one (Some nloglik_entry) (Some 2) (Some 1)
              0 1 w'.
Proof.
  split; [reflexivity|].
  destruct (Langevin_iteration_update 1 1 1 autograd_entry (score_const 3)
              sde_unit (tconst 0) time_one (Some nloglik_entry) (Some 2)
              (Some 1) 0 1 quiet_world eq_refl)
    as (x' & w' & Hit & _ & Hrest).
  exists x', w'. split; [exact Hit | exact Hrest].
Defined.

(** * Further properties of the modelled code *)

(** ** Finite sums *)

Lemma sum_upto_ext (n : nat) (f g : nat -> R) :
  (forall i, (i < n)%nat -> f i = g i) -> sum_upto n f = sum_upto n g.
Proof.
  induction n as [|n IH]; intros Hfg; cbn [sum_upto].
  - reflexivity.
  - rewrite IH by (intros i Hi; apply Hfg; lia).
    rewrite (Hfg n) by lia. reflexivity.
Qed.

Lemma sum_upto_plus (n : nat) (f g : nat -> R) :
  sum_upto n (fun i => f i + g i) = sum_upto n f + sum_upto n g.
Proof.
  induction n as [|n IH]; cbn [sum_upto]; [|rewrite IH]; ring.
Qed.

Lemma sum_upto_scal (n : nat) (a : R) (f : nat -> R) :
  sum_upto n (fun i => a * f i) = a * sum_upto n f.
Proof.
  induction n as [|n IH]; cbn [sum_upto]; [|rewrite IH]; ring.
Qed.

Lemma sum_upto_nonneg (n : nat) (f : nat -> R) :
  (forall i, (i < n)%nat -> 0 <= f i) -> 0 <= sum_upto n f.
Proof.
  induction n as [|n IH]; intros Hf; cbn [sum_upto].
  - lra.
  - assert (0 <= sum_upto n f) by (apply IH; intros i Hi; apply Hf; lia).
    assert (0 <= f n) by (apply Hf; lia). lra.
Qed.

Lemma sum_upto_zero_iff (n : nat) (f : nat -> R) :
  (forall i, (i < n)%nat -> 0 <= f i) ->
  (sum_upto n f = 0 <-> forall i, (i < n)%nat -> f i = 0).
Proof.
  induction n as [|n IH]; intros Hf; cbn [sum_upto].
  - split; [intros _ i Hi; lia | reflexivity].
  - assert (Hs : 0 <= sum_upto n f)
      by (apply sum_upto_nonneg; intros i Hi; apply Hf; lia).
    assert (Hn : 0 <= f n) by (apply Hf; lia).
    destruct IH as [IH1 IH2]; [intros i Hi; apply Hf; lia|].
    split.
    + intros Hsum i Hi.
      assert (sum_upto n f = 0) by lra. assert (f n = 0) by lra.
      destruct (Nat.eq_dec i n) as [->|Hne]; [assumption|].
      apply IH1; [assumption | lia].
    + intros Hall. rewrite IH2 by (intros i Hi; apply Hall; lia).
      rewrite (Hall n) by lia. ring.
Qed.

Lemma sum_upto_swap (n m : nat) (f : nat -> nat -> R) :
  sum_upto n (fun i => sum_upto m (fun j => f i j))
  = sum_upto m (fun j => sum_upto n (fun i => f i j)).
Proof.
  induction n as [|n IH]; cbn [sum_upto].
  - induction m as [|m IHm]; cbn [sum_upto]; [reflexivity|].
    rewrite <- IHm. ring.
  - rewrite IH, <- sum_upto_plus. reflexivity.
Qed.

Lemma inner_sym (B K : nat) (u v : tensor) : inner B K u v = inner B K v u.
Proof.
  unfold inner. apply sum_upto_ext. intros b _.
  apply sum_upto_ext. intros k _. ring.
Qed.

Lemma inner_nonneg (B K : nat) (u : tensor) : 0 <= inner B K u u.
Proof.
  unfold inner. apply sum_upto_nonneg. intros b _.
  apply sum_upto_nonneg. intros k _. nra.
Qed.

(** The product of [conj_grad_closure] as a quadratic form: columns are
    samples, so the matrix is read transposed. *)
Lemma inner_conj_grad_closure (B N M : nat) (rt : RayTrafo) (eps : R)
    (u v : mat) :
  adjoint_pair B N M rt ->
  inner N B u (conj_grad_closure v rt eps)
  = eps * inner B M (trafo rt (transpose u)) (trafo rt (transpose v))
    + inner B N (transpose u) (transpose v).
Proof.
  intros Hadj. rewrite (Hadj (transpose u) (trafo rt (transpose v))).
  unfold inner at 1. rewrite sum_upto_swap.
  unfold inner, conj_grad_closure, transpose, tadd, lscale.
  rewrite <- sum_upto_scal, <- sum_upto_plus.
  apply sum_upto_ext. intros b _.
  rewrite <- sum_upto_scal, <- sum_upto_plus.
  apply sum_upto_ext. intros n _. ring.
Qed.

Section MoreProperties.

Context (B H W : nat).
Context (autograd : (tensor -> R) -> tensor -> tensor).
Context (cg_aux : Type).
Context (linear_cg : closure -> mat -> mat -> cg_options -> exn + (mat * cg_aux)).

Local Abbreviation EM := (Euler_Maruyama_VE_sde_predictor autograd).
Local Abbreviation Langevin := (Langevin_VE_sde_corrector B H W autograd).
Local Abbreviation Decomposed :=
  (decomposed_diffusion_sampling_VE_sde_predictor B H W cg_aux linear_cg).

(** ** The flattening of the decomposed predictor *)

(** X1.  For a batch of one sample (or images of one pixel) the reshape to
    [(H*W, B)] followed by [.T.view(B, 1, H, W)] gives every entry of the
    tensor back. *)
Theorem reshape_roundtrip_single_sample :
  forall (t : tensor) (b n : nat),
    (B = 1 \/ H * W = 1)%nat -> (b < B)%nat -> (n < H * W)%nat ->
    unflatten (reshape_flat B H W t) b n = t b n.
Proof.
  intros t b n Hone Hb Hn. unfold unflatten, transpose, reshape_flat, row_major.
  destruct Hone as [HB | HN].
  - assert (b = 0%nat) by lia. subst b. rewrite HB.
    rewrite Nat.mul_1_r, Nat.add_0_r.
    rewrite Nat.div_small, Nat.mod_small by lia. reflexivity.
  - assert (n = 0%nat) by lia. subst n. rewrite HN.
    cbn [Nat.mul Nat.add]. rewrite Nat.div_1_r, Nat.mod_1_r. reflexivity.
Qed.

(** X2.  For every batch of at least two samples of at least two pixels the
    same round trip mixes the samples: the first pixel of the second sample
    comes out as the second pixel of the first sample. *)
Theorem reshape_roundtrip_mixes_samples :
  forall (t : tensor),
    (2 <= B)%nat -> (2 <= H * W)%nat ->
    unflatten (reshape_flat B H W t) 1%nat 0%nat = t 0%nat 1%nat.
Proof.
  intros t HB HN. unfold unflatten, transpose, reshape_flat, row_major.
  cbn [Nat.mul Nat.add].
  rewrite Nat.div_small, Nat.mod_small by lia. reflexivity.
Qed.

(** ** The product handed to the solver *)

(** X3.  When the adjoint of the forward operator is its adjoint for the
    inner product, the product [v |-> eps * At(A v) + v] of
    [conj_grad_closure] is symmetric. *)
Theorem conj_grad_closure_symmetric :
  forall (M : nat) (ray_trafo : RayTrafo) (eps : R) (u v : mat),
    adjoint_pair B (H * W) M ray_trafo ->
    inner (H * W) B u (conj_grad_closure v ray_trafo eps)
    = inner (H * W) B (conj_grad_closure u ray_trafo eps) v.
Proof.
  intros M rt eps u v Hadj.
  rewrite (inner_sym _ _ (conj_grad_closure u rt eps) v).
  rewrite !(inner_conj_grad_closure B (H * W) M) by exact Hadj.
  rewrite (inner_sym B M (trafo rt (transpose v))).
  rewrite (inner_sym B (H * W) (transpose v)). reflexivity.
Qed.

(** X4.  With a weight [eps >= 0] the product is positive definite, as
    conjugate gradients need it: [<v, eps * At(A v) + v> >= <v, v>], so it
    sends no vector other than zero to zero. *)
Theorem conj_grad_closure_positive_definite :
  forall (M : nat) (ray_trafo : RayTrafo) (eps : R) (v : mat),
    adjoint_pair B (H * W) M ray_trafo -> 0 <= eps ->
    inner (H * W) B v v <= inner (H * W) B v (conj_grad_closure v ray_trafo eps)
    /\ ((forall n b, (n < H * W)%nat -> (b < B)%nat ->
           conj_grad_closure v ray_trafo eps n b = 0) ->
        forall n b, (n < H * W)%nat -> (b < B)%nat -> v n b = 0).
Proof.
  intros M rt eps v Hadj Heps.
  assert (Hle : inner (H * W) B v v
                <= inner (H * W) B v (conj_grad_closure v rt eps)).
  { rewrite (inner_conj_grad_closure B (H * W) M) by exact Hadj.
    assert (Hsq := inner_nonneg B M (trafo rt (transpose v))).
    assert (Htr : inner B (H * W) (transpose v) (transpose v)
                  = inner (H * W) B v v).
    { unfold inner, transpose. symmetry. apply sum_upto_swap. }
    rewrite Htr. nra. }
  split; [exact Hle|].
  intros Hzero.
  assert (Hv : inner (H * W) B v v = 0).
  { assert (Hz : inner (H * W) B v (conj_grad_closure v rt eps) = 0).
    { unfold inner.
      rewrite (sum_upto_ext _ _ (fun _ => 0)).
      - clear. induction (H * W)%nat; cbn [sum_upto]; lra.
      - intros n Hn. rewrite (sum_upto_ext _ _ (fun _ => 0)).
        + clear. induction B; cbn [sum_upto]; lra.
        + intros b Hb. rewrite Hzero by assumption. ring. }
    assert (Hnn := inner_nonneg (H * W) B v). lra. }
  unfold inner in Hv.
  intros n b Hn Hb.
  apply sum_upto_zero_iff with (i := n) in Hv; [|idtac|exact Hn].
  - apply sum_upto_zero_iff with (i := b) in Hv; [nra | | exact Hb].
    intros j _. nra.
  - intros i _. apply sum_upto_nonneg. intros j _. nra.
Qed.

(** X5.  The calling convention of [conj_grad_closure(x, ray_trafo,
    eps=1e-5)]: called with [x] and [ray_trafo] alone it uses the weight
    [1e-5]; it takes the weight under the keyword [eps]; and every keyword
    that is none of its three parameter names is refused with a
    [TypeError]. *)
Theorem conj_grad_closure_calling_convention :
  forall (x : mat) (ray_trafo : RayTrafo),
    conj_grad_closure_py [PyTensor x; PyTrafo ray_trafo] []
    = inr (conj_grad_closure x ray_trafo c1em5)
    /\ (forall eps : R,
          conj_grad_closure_py [PyTensor x]
            [("ray_trafo"%string, PyTrafo ray_trafo);
             ("eps"%string, PyFloat eps)]
          = inr (conj_grad_closure x ray_trafo eps))
    /\ (forall (k : string) (v : pyval),
          k <> "x"%string -> k <> "ray_trafo"%string -> k <> "eps"%string ->
          conj_grad_closure_py [PyTensor x]
            [("ray_trafo"%string, PyTrafo ray_trafo); (k, v)]
          = inl (TypeError (UnexpectedKeyword k))).
Proof.
  intros x rt. split; [reflexivity|]. split; [reflexivity|].
  intros k v Hx Hrt Heps.
  unfold conj_grad_closure_py, bind_arguments, conj_grad_closure_sig.
  cbn [bind_positional bind_keywords existsb fst negb orb String.eqb
       Ascii.eqb Bool.eqb lookup is_some].
  apply String.eqb_neq in Hx, Hrt, Heps.
  cbn [existsb fst]. rewrite Hx, Hrt, Heps. reflexivity.
Qed.

(** ** The Langevin corrector *)

Lemma langevin_loop_app (m n : nat) (score : score_fn) (x : tensor)
    (t : tvec) (nloglik : option nloglik_fn) (d p : option R) (snr : R)
    (w : world) :
  langevin_loop B H W autograd (m + n) score x t nloglik d p snr w
  = bind (langevin_loop B H W autograd m score x t nloglik d p snr)
         (fun x' => langevin_loop B H W autograd n score x' t nloglik d p snr)
         w.
Proof.
  revert x w. induction m as [|m IH]; intros x w.
  - reflexivity.
  - cbn [Nat.add langevin_loop]. unfold bind at 1 2 3.
    destruct (langevin_iteration B H W autograd score x t nloglik d p snr w)
      as [[e | x'] w'].
    + reflexivity.
    + rewrite IH. reflexivity.
Qed.

(** X6.  Corrector steps compose: [a + b] steps are [a] steps followed by
    [b] steps from the state the first call returns (an exception of the
    first call is the exception of the whole). *)
Theorem Langevin_steps_compose :
  forall (score : score_fn) (sde : SDE) (x : tensor) (t : tvec)
         (nloglik : option nloglik_fn) (datafitscale penalty : option R)
         (a b : Z) (snr : R) (w : world),
    (0 <= a)%Z -> (0 <= b)%Z ->
    Langevin score sde x t nloglik datafitscale penalty (a + b) snr w
    = bind (Langevin score sde x t nloglik datafitscale penalty a snr)
           (fun x' =>
              Langevin score sde x' t nloglik datafitscale penalty b snr)
           w.
Proof.
  intros until w. intros Ha Hb. unfold Langevin_VE_sde_corrector.
  rewrite Z2Nat.inj_add by assumption.
  destruct nloglik as [f|];
    [destruct (is_some datafitscale && is_some penalty) eqn:Hok|];
    unfold py_assert; try rewrite Hok;
    unfold bind at 1 3 4, ret, raise; cbn [fst snd];
    try reflexivity;
    rewrite langevin_loop_app; unfold bind;
    destruct (langevin_loop B H W autograd (Z.to_nat a) score x t _
                datafitscale penalty snr w) as [[e | x'] w'];
    try rewrite Hok; reflexivity.
Qed.

Lemma langevin_loop_effects (k : nat) (score : score_fn) (x : tensor)
    (t : tvec) (nloglik : option nloglik_fn) (d p : option R) (snr : R)
    (w : world) :
  contract_ok nloglik d p = true ->
  exists x' w',
    langevin_loop B H W autograd k score x t nloglik d p snr w = (inr x', w')
    /\ trace w'
       = trace w ++ List.concat (repeat (step_events (is_some nloglik)) k)
    /\ forall i, rng w' i = rng w (k + i)%nat.
Proof.
  intros Hok. revert x w. induction k as [|k IH]; intros x w.
  - exists x, w. cbn [langevin_loop repeat List.concat]. unfold ret.
    rewrite app_nil_r. auto.
  - cbn [langevin_loop]. unfold bind at 1.
    assert (Hit : exists x1,
      langevin_iteration B H W autograd score x t nloglik d p snr w
      = (inr x1, mkWorld (fun i => rng w (S i))
                   (trace w ++ step_events (is_some nloglik)))).
    { unfold contract_ok in Hok.
      destruct nloglik as [f|];
        [destruct d as [dv|], p as [pv|]; try discriminate|];
        eexists; run_calls; cbn [rng trace step_events is_some app];
        rewrite <- ?app_assoc; reflexivity. }
    destruct Hit as [x1 Hit]. rewrite Hit.
    destruct (IH x1 (mkWorld (fun i => rng w (S i))
                       (trace w ++ step_events (is_some nloglik))))
      as (x' & w' & Hrun & Htr & Hrng).
    exists x', w'. split; [exact Hrun|]. split.
    + rewrite Htr. cbn [trace repeat List.concat]. rewrite <- app_assoc.
      reflexivity.
    + intros i. rewrite Hrng. reflexivity.
Qed.

(** X7.  Whenever the corrector returns, it has run its
    [max(corrector_steps, 0)] iterations in full: in each one it has
    evaluated the score once (and the data-fit function and its gradient
    once, when there is one) and taken one draw, so the generator is
    advanced by exactly the number of iterations. *)
Theorem Langevin_effects :
  forall (score : score_fn) (sde : SDE) (x : tensor) (t : tvec)
         (nloglik : option nloglik_fn) (datafitscale penalty : option R)
         (corrector_steps : Z) (snr : R) (w : world) (x' : tensor)
         (w' : world),
    Langevin score sde x t nloglik datafitscale penalty corrector_steps
      snr w = (inr x', w') ->
    trace w'
    = trace w
      ++ List.concat (repeat (step_events (is_some nloglik))
                             (Z.to_nat corrector_steps))
    /\ forall i, rng w' i = rng w (Z.to_nat corrector_steps + i)%nat.
Proof.
  intros until w'. intros Hrun.
  destruct (contract_ok nloglik datafitscale penalty) eqn:Hok.
  - destruct (langevin_loop_effects (Z.to_nat corrector_steps) score x t
                nloglik datafitscale penalty snr w Hok)
      as (x1 & w1 & Hloop & Htr & Hrng).
    assert (Hsame : Langevin score sde x t nloglik datafitscale penalty
                      corrector_steps snr w = (inr x1, w1)).
    { unfold Langevin_VE_sde_corrector. unfold contract_ok in Hok.
      destruct nloglik; [rewrite Hok|]; unfold py_assert, bind, ret;
        exact Hloop. }
    rewrite Hsame in Hrun. injection Hrun as _ <-. split; assumption.
  - unfold Langevin_VE_sde_corrector, contract_ok in *.
    destruct nloglik; [|discriminate Hok].
    rewrite Hok in Hrun. discriminate Hrun.
Qed.

(** ** The Euler-Maruyama predictor *)

(** X8.  Whenever the predictor returns, it has evaluated the score once,
    the data-fit function and its gradient once when there is one, and has
    taken exactly one draw from the generator. *)
Theorem EM_effects :
  forall (score : score_fn) (sde : SDE) (x : tensor) (t : tvec)
         (step_size : R) (nloglik : option nloglik_fn)
         (datafitscale penalty : option R) (aTweedy : bool) (w : world)
         (x_next x_mean : tensor) (w' : world),
    EM score sde x t step_size nloglik datafitscale penalty aTweedy w
    = (inr (x_next, x_mean), w') ->
    w' = mkWorld (fun k => rng w (S k))
                 (trace w ++ step_events (is_some nloglik)).
Proof.
  intros until w'.
  destruct nloglik as [f|], datafitscale as [d|], penalty as [p|], aTweedy;
    run_calls; cbn [rng trace step_events is_some app fst snd];
    intros Hrun; try discriminate Hrun; injection Hrun as _ _ <-;
    rewrite <- ?app_assoc; reflexivity.
Qed.

(** X9.  In Tweedy mode the value of [datafitscale] is never used (it is
    replaced by the reciprocal of the loss), although the contract demands
    that one be given: two calls that differ in that value alone agree. *)
Theorem EM_tweedy_ignores_datafitscale :
  forall (score : score_fn) (sde : SDE) (x : tensor) (t : tvec)
         (step_size : R) (f : nloglik_fn) (d1 d2 : R) (penalty : option R)
         (w : world),
    EM score sde x t step_size (Some f) (Some d1) penalty true w
    = EM score sde x t step_size (Some f) (Some d2) penalty true w.
Proof. intros. destruct penalty; reflexivity. Qed.

(** X10.  Without a data-fit function neither the mode [aTweedy] nor
    [datafitscale] nor [penalty] has any influence on the predictor. *)
Theorem EM_plain_ignores_datafit_arguments :
  forall (score : score_fn) (sde : SDE) (x : tensor) (t : tvec)
         (step_size : R) (d1 d2 p1 p2 : option R) (m1 m2 : bool) (w : world),
    EM score sde x t step_size None d1 p1 m1 w
    = EM score sde x t step_size None d2 p2 m2 w.
Proof. intros. reflexivity. Qed.

(** X11.  With [penalty = 0] the data-fit function is still evaluated and
    differentiated, but it does not steer the step: whenever that call
    returns, its [x_next] and [x_mean] are, entry by entry, those that the
    predictor without data-fit function returns from the same generator,
    provided that in Tweedy mode the loss is not zero (at a zero loss the
    code multiplies zero by an infinite [datafitscale]). *)
Theorem EM_zero_penalty :
  forall (score : score_fn) (sde : SDE) (x : tensor) (t : tvec)
         (step_size : R) (f : nloglik_fn) (datafitscale : R)
         (aTweedy : bool) (w : world) (x_next x_mean : tensor) (w1 : world),
    (aTweedy = true ->
     f (tadd x (tmul (score x t)
                     (tpow2 (unsqueeze (marginal_prob_std sde t))))) <> 0) ->
    EM score sde x t step_size (Some f) (Some datafitscale) (Some 0)
       aTweedy w = (inr (x_next, x_mean), w1) ->
    exists x_next' x_mean' w2,
      EM score sde x t step_size None None None false w
      = (inr (x_next', x_mean'), w2)
      /\ x_next =t= x_next' /\ x_mean =t= x_mean'.
Proof.
  intros until w1. intros Hloss. run_calls.
  destruct aTweedy; cbn [fst snd]; intros Hrun;
    injection Hrun as <- <- _; eexists _, _, _;
    (split; [reflexivity|]);
    split; intros b n; entrywise; ring.
Qed.

(** ** The decomposed predictor *)

(** X12.  When the solver raises, the decomposed predictor raises the same
    exception after one evaluation of the score, and the generator is left
    as it was: no noise is drawn. *)
Theorem decomposed_solver_failure :
  forall (score : score_fn) (sde : SDE) (x rhs : tensor) (t : tvec)
         (cl : closure) (eta step_size : R) (kw : cg_options)
         (datafitscale : option R) (w : world) (e : exn),
    let xhat0 :=
      tadd x (tmul (score x t)
                   (tpow2 (unsqueeze (marginal_prob_std sde t)))) in
    linear_cg cl
      (tadd (rscale (reshape_flat B H W rhs) c1em5) (reshape_flat B H W xhat0))
      (reshape_flat B H W xhat0) kw = inl e ->
    Decomposed score sde x rhs t cl eta step_size kw datafitscale w
    = (inl e, mkWorld (rng w) (trace w ++ [EvScore; EvLinearCG])).
Proof.
  intros until e. intros xhat0 Hcg. run_calls. cbn [rng trace].
  fold xhat0. rewrite Hcg. rewrite <- app_assoc. reflexivity.
Qed.

(** X13.  With [step_size = 0] and a non-zero [marginal_prob_std(t)] the
    decomposed predictor is noise-free whatever [eta] is: [beta] vanishes
    and [x_next = xhat - marginal_prob_std(t)^2 * score(x,t)], the same for
    every draw of the generator. *)
Theorem decomposed_zero_step :
  forall (score : score_fn) (sde : SDE) (x rhs : tensor) (t : tvec)
         (cl : closure) (eta : R) (kw : cg_options)
         (datafitscale : option R) (w : world),
    (forall b, marginal_prob_std sde t b <> 0) ->
    let xhat0 :=
      tadd x (tmul (score x t)
                   (tpow2 (unsqueeze (marginal_prob_std sde t)))) in
    match fst (Decomposed score sde x rhs t cl eta 0 kw datafitscale w) with
    | inr (x_next, xhat) =>
        forall b n,
          x_next b n
          = xhat b n - marginal_prob_std sde t b ^ 2 * score x t b n
    | inl e =>
        linear_cg cl
          (tadd (rscale (reshape_flat B H W rhs) c1em5)
                (reshape_flat B H W xhat0))
          (reshape_flat B H W xhat0) kw = inl e
    end.
Proof.
  intros until w. intros Hstd xhat0. run_calls. cbn [rng trace].
  fold xhat0.
  destruct (linear_cg cl _ _ kw) as [e | [X aux]]; cbn [fst snd].
  - reflexivity.
  - intros b n.
    assert (Ht : vsub_scalar t 0 = t).
    { apply functional_extensionality. intros i. unfold vsub_scalar. ring. }
    rewrite Ht. entrywise.
    set (s := marginal_prob_std sde t b) in *.
    assert (Hs : s <> 0) by apply Hstd.
    replace (1 - s ^ 2 / s ^ 2) with 0 by (field; exact Hs).
    replace (1 - 0 ^ 2 * eta ^ 2) with 1 by ring.
    rewrite sqrt_1. ring.
Qed.

End MoreProperties.

(** ** The data-fit function *)

(** X14.  The data-fit function that [get_standard_sampler] hands to the
    predictors and to the corrector is never negative, and it is zero
    exactly when the forward operator maps the candidate to the
    observation, entry by entry. *)
Theorem residual_norm_zero_iff :
  forall (B M : nat) (observation : tensor) (ray_trafo : RayTrafo)
         (x : tensor),
    0 <= residual_norm B M observation ray_trafo x
    /\ (residual_norm B M observation ray_trafo x = 0
        <-> forall b m, (b < B)%nat -> (m < M)%nat ->
                        trafo ray_trafo x b m = observation b m).
Proof.
  intros B M obs rt x. unfold residual_norm. split; [apply sqrt_pos|].
  set (r := tsub obs (trafo rt x)).
  assert (Hnn : 0 <= sum_squares B M r).
  { unfold sum_squares. apply sum_upto_nonneg. intros b _.
    apply sum_upto_nonneg. intros m _. apply pow2_ge_0. }
  assert (Hrows : forall b, (b < B)%nat ->
                    0 <= sum_upto M (fun m => r b m ^ 2)).
  { intros b _. apply sum_upto_nonneg. intros m _. apply pow2_ge_0. }
  split.
  - intros Hz b m Hb Hm. apply sqrt_eq_0 in Hz; [|exact Hnn].
    unfold sum_squares in Hz.
    pose proof (proj1 (sum_upto_zero_iff B _ Hrows) Hz b Hb) as Hrow.
    pose proof (proj1 (sum_upto_zero_iff M (fun m => r b m ^ 2)
                         (fun i _ => pow2_ge_0 (r b i))) Hrow m Hm) as Hent.
    cbn beta in Hent. subst r. unfold tsub in Hent. nra.
  - intros Hall.
    assert (Hz : sum_squares B M r = 0).
    { unfold sum_squares. apply (sum_upto_zero_iff B _ Hrows). intros b Hb.
      apply (sum_upto_zero_iff M (fun m => r b m ^ 2)
               (fun i _ => pow2_ge_0 (r b i))).
      intros m Hm. subst r. unfold tsub. rewrite Hall by assumption. ring. }
    rewrite Hz. apply sqrt_0.
Qed.

(** ** The chain initializer *)

Lemma py_index_out_of_range (l : list R) (i : Z) :
  (i < - Z.of_nat (List.length l) \/ Z.of_nat (List.length l) <= i)%Z ->
  py_index l i = None.
Proof.
  intros Hi. unfold py_index.
  destruct ((0 <=? i) && (i <? Z.of_nat (List.length l)))%Z eqn:E1.
  - apply andb_true_iff in E1. lia.
  - destruct ((- Z.of_nat (List.length l) <=? i) && (i <? 0))%Z eqn:E2.
    + apply andb_true_iff in E2. lia.
    + reflexivity.
Qed.

Lemma py_index_in_range (l : list R) (i : Z) :
  (- Z.of_nat (List.length l) <= i < Z.of_nat (List.length l))%Z ->
  py_index l i
  = Some (nth (Z.to_nat (i mod Z.of_nat (List.length l))) l 0).
Proof.
  intros Hi. unfold py_index.
  destruct ((0 <=? i) && (i <? Z.of_nat (List.length l)))%Z eqn:E1.
  - apply andb_true_iff in E1. rewrite Z.mod_small by lia. reflexivity.
  - destruct ((- Z.of_nat (List.length l) <=? i) && (i <? 0))%Z eqn:E2.
    + apply andb_true_iff in E2.
      replace (i mod Z.of_nat (List.length l))%Z
        with (Z.of_nat (List.length l) + i)%Z; [reflexivity|].
      apply Z.mod_unique with (q := (-1)%Z); lia.
    + apply andb_false_iff in E1, E2. lia.
Qed.

Lemma broadcast_noise_shape (B H W : nat) :
  broadcast_shapes [B; H; W] [B; 1; 1; 1]%nat = Some [B; B; H; W].
Proof.
  unfold broadcast_shapes. cbn [rev app broadcast_aligned Nat.eqb].
  rewrite !orb_true_r. reflexivity.
Qed.

Lemma broadcast_init_shape (Bf B H W : nat) :
  Bf = 1%nat \/ Bf = B ->
  broadcast_shapes [Bf; 1; H; W]%nat [B; B; H; W] = Some [B; B; H; W].
Proof.
  intros HBf. unfold broadcast_shapes. cbn [rev app broadcast_aligned].
  rewrite !Nat.eqb_refl. cbn [orb option_map].
  destruct (Nat.eqb_spec 1 B) as [<-|Hne1].
  - cbn [orb Nat.eqb option_map].
    destruct HBf as [-> | ->]; reflexivity.
  - destruct (Nat.eqb_spec B 1) as [->|Hne2]; [congruence|].
    cbn [orb Nat.eqb option_map].
    destruct HBf as [-> | ->].
    + destruct (Nat.eqb_spec 1 B); [congruence|].
      cbn [orb Nat.eqb option_map rev app]. reflexivity.
    + rewrite Nat.eqb_refl. reflexivity.
Qed.

(** X15.  When [start_time_step] is outside [-len(time_steps),
    len(time_steps))] the chain initializer raises [IndexError] before it
    draws any noise: the generator and the trace are those of the caller. *)
Theorem chain_simple_init_index_error :
  forall (time_steps : list R) (sde : SDE) (filtbackproj : ndarray)
         (start : Z) (im_shape : nat * nat) (batch_size : nat)
         (device : string) (w : world),
    (start < - Z.of_nat (List.length time_steps)
     \/ Z.of_nat (List.length time_steps) <= start)%Z ->
    chain_simple_init time_steps sde filtbackproj start im_shape batch_size
      device w
    = (inl IndexError, w).
Proof.
  intros until w. intros Hi. unfold chain_simple_init.
  rewrite py_index_out_of_range by exact Hi. reflexivity.
Qed.

(** X16.  Called as [get_standard_sampler] calls it, with the two-entry
    image shape [(H, W)] and a reconstruction of shape [(1, 1, H, W)] or
    [(B, 1, H, W)], the chain initializer returns a tensor of shape
    [(B, B, H, W)]: the draw of shape [(B, H, W)] is broadcast against the
    standard deviation of shape [(B, 1, 1, 1)].  The result has the shape
    [(B, 1, H, W)] of a state exactly when the batch has one sample. *)
Theorem chain_simple_init_shape :
  forall (time_steps : list R) (sde : SDE) (filtbackproj : ndarray)
         (start : Z) (H W B Bf : nat) (device : string) (w : world),
    (- Z.of_nat (List.length time_steps) <= start
     < Z.of_nat (List.length time_steps))%Z ->
    nd_shape filtbackproj = [Bf; 1; H; W]%nat -> Bf = 1%nat \/ Bf = B ->
    exists x,
      chain_simple_init time_steps sde filtbackproj start (H, W) B device w
      = (inr x, mkWorld (fun k => rng w (S k)) (trace w ++ [EvRandn]))
      /\ nd_shape x = [B; B; H; W]
      /\ (nd_shape x = [B; 1; H; W]%nat <-> B = 1%nat).
Proof.
  intros until w. intros Hi Hshape HBf. unfold chain_simple_init.
  rewrite py_index_in_range by exact Hi.
  unfold nd_binop at 1. cbn [nd_shape nd_of_draw nd_column fst snd].
  rewrite broadcast_noise_shape.
  unfold nd_binop. cbn [nd_shape]. rewrite Hshape.
  rewrite broadcast_init_shape by exact HBf.
  eexists. split; [reflexivity|]. cbn [nd_shape]. split; [reflexivity|].
  split; [intros E; injection E; auto | intros ->; reflexivity].
Qed.

(** X17.  The entries of that result: entry [(i, j, h, w)] is the
    reconstruction at [(h, w)] plus entry [(j, h, w)] of the one draw times
    the standard deviation of sample [i] at the start time, which is
    [time_steps[start_time_step]] with a negative index counted from the
    end. *)
Theorem chain_simple_init_entries :
  forall (time_steps : list R) (sde : SDE) (filtbackproj : ndarray)
         (start : Z) (H W B Bf : nat) (device : string) (w : world)
         (i j h k : nat),
    (- Z.of_nat (List.length time_steps) <= start
     < Z.of_nat (List.length time_steps))%Z ->
    nd_shape filtbackproj = [Bf; 1; H; W]%nat -> Bf = 1%nat \/ Bf = B ->
    (i < B)%nat -> (j < B)%nat -> (h < H)%nat -> (k < W)%nat ->
    let tau :=
      nth (Z.to_nat (start mod Z.of_nat (List.length time_steps)))
          time_steps 0 in
    exists x w',
      chain_simple_init time_steps sde filtbackproj start (H, W) B device w
      = (inr x, w')
      /\ nd_at x [i; j; h; k]
         = nd_at filtbackproj [if (Bf =? 1)%nat then 0%nat else i; 0%nat; h; k]
           + next_draw w j (h * W + k)%nat
             * marginal_prob_std sde (fun _ => tau) i.
Proof.
  intros until k. intros Hi Hshape HBf Hib Hjb Hh Hk tau.
  unfold chain_simple_init.
  rewrite py_index_in_range by exact Hi. fold tau.
  unfold nd_binop at 1. cbn [nd_shape nd_of_draw nd_column fst snd].
  rewrite broadcast_noise_shape.
  unfold nd_binop. cbn [nd_shape]. rewrite Hshape.
  rewrite broadcast_init_shape by exact HBf.
  eexists _, _. split; [reflexivity|].
  cbn [nd_at nd_shape]. unfold broadcast_index.
  cbn [List.length Nat.sub skipn combine map fst snd nth Nat.eqb].
  assert (Hsel : forall d a, (a < d)%nat ->
                   (if (d =? 1)%nat then 0%nat else a) = a).
  { intros d a Ha. destruct (Nat.eqb_spec d 1); [lia | reflexivity]. }
  unfold nd_of_draw, nd_column. cbn [nd_at nth fst snd].
  repeat (rewrite (Hsel H h Hh) || rewrite (Hsel W k Hk)
          || rewrite (Hsel B j Hjb) || rewrite (Hsel B i Hib)).
  reflexivity.
Qed.

(** ** The start of the chain *)

Lemma py_ceil_spec (r : R) : IZR (py_ceil r) - 1 < r <= IZR (py_ceil r).
Proof.
  unfold py_ceil. rewrite minus_IZR.
  destruct (archimed (- r)) as [Hup Hlow]. lra.
Qed.

Lemma py_ceil_pos_iff (r : R) : (0 < py_ceil r)%Z <-> 0 < r.
Proof.
  destruct (py_ceil_spec r) as [Hlo Hhi]. split.
  - intros Hpos. assert (1 <= IZR (py_ceil r)) by (apply IZR_le; lia). lra.
  - intros Hr. apply lt_IZR. lra.
Qed.

(** X18.  [get_standard_sampler] configures the chain initializer exactly
    when [pct_chain_elapsed * num_steps] is positive; otherwise
    [init_chain_fn] is [None] and the chain starts from noise. *)
Theorem init_chain_fn_configured_iff :
  forall (sde : SDE) (ray_trafo : RayTrafo) (filtbackproj : ndarray)
         (batch_size : nat) (device : string) (pct : R) (num_steps : Z),
    init_chain_fn sde ray_trafo filtbackproj batch_size device pct num_steps
    = None
    <-> pct * IZR num_steps <= 0.
Proof.
  intros. unfold init_chain_fn, start_time_step.
  destruct (Z.ltb_spec 0 (py_ceil (pct * IZR num_steps))) as [Hpos | Hnpos].
  - apply py_ceil_pos_iff in Hpos. split; [discriminate | lra].
  - split; [intros _ | reflexivity].
    destruct (Rle_or_lt (pct * IZR num_steps) 0) as [Hle | Hgt];
      [exact Hle|].
    apply py_ceil_pos_iff in Hgt. lia.
Qed.

(** X19.  The start index with the rounding of the code: for every
    rounding [rnd] of the product to a double that is monotone and leaves
    zero and [num_steps] as they are, a fraction
    [0 <= pct_chain_elapsed <= 1] and a non-negative number of steps give a
    start index [ceil(rnd(pct_chain_elapsed * num_steps))] in
    [0, num_steps], and the fraction one gives [num_steps] itself.  The
    fraction one, where the product is exact, is [start_time_step 1]. *)
Theorem start_time_step_range :
  forall (rnd : R -> R) (pct : R) (num_steps : Z),
    (forall a b, a <= b -> rnd a <= rnd b) ->
    rnd 0 = 0 -> rnd (IZR num_steps) = IZR num_steps ->
    0 <= pct <= 1 -> (0 <= num_steps)%Z ->
    (0 <= py_ceil (rnd (pct * IZR num_steps)%R) <= num_steps)%Z
    /\ (pct = 1 -> py_ceil (rnd (pct * IZR num_steps)) = num_steps)
    /\ start_time_step 1 num_steps = num_steps.
Proof.
  intros rnd pct n Hmono H0 Hn_fix Hpct Hn.
  assert (HnR : 0 <= IZR n) by (apply IZR_le; exact Hn).
  assert (Hrange : forall r, 0 <= r <= IZR n ->
                     (0 <= py_ceil r <= n)%Z).
  { intros r Hr. destruct (py_ceil_spec r) as [Hlo Hhi]. split.
    - destruct (Z_le_gt_dec 0 (py_ceil r)) as [Hc | Hc]; [exact Hc|].
      assert (IZR (py_ceil r) <= -1) by (apply IZR_le; lia). lra.
    - destruct (Z_le_gt_dec (py_ceil r) n) as [Hc | Hc]; [exact Hc|].
      assert (IZR n + 1 <= IZR (py_ceil r))
        by (rewrite <- plus_IZR; apply IZR_le; lia). lra. }
  assert (Hint : py_ceil (IZR n) = n).
  { destruct (py_ceil_spec (IZR n)) as [Hlo Hhi].
    apply le_IZR in Hhi.
    assert (Hlt : (py_ceil (IZR n) - 1 < n)%Z)
      by (apply lt_IZR; rewrite minus_IZR; exact Hlo).
    lia. }
  assert (Hprod : 0 <= pct * IZR n <= IZR n) by nra.
  assert (Hrnd : 0 <= rnd (pct * IZR n) <= IZR n).
  { assert (rnd 0 <= rnd (pct * IZR n)) by (apply Hmono; lra).
    assert (rnd (pct * IZR n) <= rnd (IZR n)) by (apply Hmono; lra).
    lra. }
  split; [apply Hrange; exact Hrnd|]. split.
  - intros ->. rewrite Rmult_1_l, Hn_fix. exact Hint.
  - unfold start_time_step. rewrite Rmult_1_l. exact Hint.
Qed.

(** X20.  With [pct_chain_elapsed = 1] (where the product is [num_steps]
    exactly) and a time grid of [num_steps >= 1] entries, the chain
    initializer that [get_standard_sampler] configures reads
    [time_steps[num_steps]]: it raises [IndexError] and draws nothing. *)
Theorem init_chain_fn_index_error :
  forall (sde : SDE) (ray_trafo : RayTrafo) (filtbackproj : ndarray)
         (batch_size : nat) (device : string) (num_steps : Z)
         (time_steps : list R),
    (1 <= num_steps)%Z ->
    Z.of_nat (List.length time_steps) = num_steps ->
    exists init,
      init_chain_fn sde ray_trafo filtbackproj batch_size device 1 num_steps
      = Some init
      /\ forall w, init time_steps w = (inl IndexError, w).
Proof.
  intros until time_steps. intros Hn Hlen.
  assert (Hstart : start_time_step 1 num_steps = num_steps).
  { unfold start_time_step. rewrite Rmult_1_l.
    destruct (py_ceil_spec (IZR num_steps)) as [Hlo Hhi].
    apply le_IZR in Hhi.
    assert (Hlt : (py_ceil (IZR num_steps) - 1 < num_steps)%Z)
      by (apply lt_IZR; rewrite minus_IZR; exact Hlo).
    lia. }
  unfold init_chain_fn. rewrite Hstart.
  destruct (Z.ltb_spec 0 num_steps) as [_ | Hc]; [|lia].
  eexists. split; [reflexivity|]. intros w. cbv beta.
  unfold chain_simple_init.
  rewrite py_index_out_of_range by lia. reflexivity.
Qed.

(** ** The selectors *)

Section SelectorProperties.

Context (lower : string -> string).

(** X21.  [get_standard_train_dataset] has no branch for other names: for a
    dataset name that is none of the three it knows, it makes no call and
    fails at [return train_dl] with [UnboundLocalError]. *)
Theorem train_dataset_unknown_name :
  forall (data_name : string) (num_n_ellipse : Z),
    lower data_name <> lower "EllipseDatasetFromDival" ->
    lower data_name <> lower "DiskDistributedEllipsesDataset" ->
    lower data_name <> lower "LoDoPabCT" ->
    get_standard_train_dataset lower data_name num_n_ellipse
    = inl (UnboundLocalError "train_dl").
Proof.
  intros name n H1 H2 H3. unfold get_standard_train_dataset.
  apply String.eqb_neq in H1, H2, H3. rewrite H1, H2, H3. reflexivity.
Qed.

(** X22.  For the disk-ellipses dataset with at most one ellipse the
    function calls [get_one_ellipses_dataset], a name that the module
    neither imports nor defines: the call raises [NameError]; with more
    than one ellipse a loader with the fixed batch size 3 is returned. *)
Theorem train_dataset_disk_ellipses :
  forall (data_name : string) (num_n_ellipse : Z),
    lower data_name <> lower "EllipseDatasetFromDival" ->
    lower data_name = lower "DiskDistributedEllipsesDataset" ->
    ((num_n_ellipse <= 1)%Z ->
     get_standard_train_dataset lower data_name num_n_ellipse
     = inl (NameError "get_one_ellipses_dataset"))
    /\ ((1 < num_n_ellipse)%Z ->
        exists dataset,
          get_standard_train_dataset lower data_name num_n_ellipse
          = inr (Call "torch.utils.data.DataLoader" [AObj dataset]
                   [("batch_size"%string, AInt 3);
                    ("shuffle"%string, ABool false);
                    ("num_workers"%string, AInt 16)])).
Proof.
  intros name n H1 H2. unfold get_standard_train_dataset.
  apply String.eqb_neq in H1. rewrite H1, H2, String.eqb_refl.
  split; intros Hn.
  - destruct (Z.ltb_spec 1 n) as [Hc | _]; [lia|]. reflexivity.
  - destruct (Z.ltb_spec 1 n) as [_ | Hc]; [|lia].
    eexists. reflexivity.
Qed.

(** X23.  [get_standard_configs] for a model learned on LoDoPaB with an SDE
    that is neither 'vesde' nor 'vpsde' imports no [get_config]: it prints
    nothing and fails at [config = get_config()] with [UnboundLocalError],
    whatever the dataset is, and not with [NotImplementedError]. *)
Theorem configs_lodopab_unknown_sde :
  forall (model_learned_on sde dataset : string),
    lower model_learned_on = "lodopab"%string ->
    lower sde <> "vesde"%string -> lower sde <> "vpsde"%string ->
    get_standard_configs lower model_learned_on sde dataset
    = (inl (UnboundLocalError "get_config"), []).
Proof.
  intros m sde d Hm H1 H2. unfold get_standard_configs.
  apply String.eqb_neq in H1, H2. rewrite Hm, H1, H2. reflexivity.
Qed.

End SelectorProperties.

(** ** The further properties on concrete inputs *)

Lemma reshape_roundtrip_single_sample_witness :
  unflatten (reshape_flat 1 2 2 (tconst 3)) 0%nat 3%nat = tconst 3 0%nat 3%nat.
Proof.
  apply (reshape_roundtrip_single_sample 1 2 2 (tconst 3) 0 3);
    [left; reflexivity | lia | cbn; lia].
Defined.

Lemma reshape_roundtrip_mixes_samples_witness :
  unflatten (reshape_flat 2 1 2 (fun b n => INR (b + n))) 1%nat 0%nat
  = INR (0 + 1).
Proof.
  apply (reshape_roundtrip_mixes_samples 2 1 2 (fun b n => INR (b + n)));
    cbn; lia.
Defined.

Lemma ray_identity_adjoint : adjoint_pair 1 (1 * 1) 1 ray_identity.
Proof. intros x y. reflexivity. Defined.

Lemma conj_grad_closure_symmetric_witness :
  inner (1 * 1) 1 (tconst 2) (conj_grad_closure (tconst 3) ray_identity 1)
  = inner (1 * 1) 1 (conj_grad_closure (tconst 2) ray_identity 1) (tconst 3).
Proof.
  apply (conj_grad_closure_symmetric 1 1 1 1 ray_identity 1
           (tconst 2) (tconst 3) ray_identity_adjoint).
Defined.

Lemma conj_grad_closure_positive_definite_witness :
  inner (1 * 1) 1 (tconst 3) (tconst 3)
  <= inner (1 * 1) 1 (tconst 3) (conj_grad_closure (tconst 3) ray_identity 1).
Proof.
  apply (conj_grad_closure_positive_definite 1 1 1 1 ray_identity 1
           (tconst 3) ray_identity_adjoint).
  lra.
Defined.

Lemma conj_grad_closure_calling_convention_witness :
  conj_grad_closure_py [PyTensor (tconst 3)]
    [("ray_trafo"%string, PyTrafo ray_identity);
     ("gamma"%string, PyFloat 1)]
  = inl (TypeError (UnexpectedKeyword "gamma")).
Proof.
  apply (proj2 (proj2 (conj_grad_closure_calling_convention
                         (tconst 3) ray_identity)));
    discriminate.
Defined.

Lemma Langevin_steps_compose_witness :
  Langevin_VE_sde_corrector 1 1 1 autograd_entry (score_const 3) sde_unit
    (tconst 0) time_one None None None (2 + 3) 1 quiet_world
  = bind (Langevin_VE_sde_corrector 1 1 1 autograd_entry (score_const 3)
            sde_unit (tconst 0) time_one None None None 2 1)
         (fun x' =>
            Langevin_VE_sde_corrector 1 1 1 autograd_entry (score_const 3)
              sde_unit x' time_one None None None 3 1)
         quiet_world.
Proof.
  apply (Langevin_steps_compose 1 1 1 autograd_entry); lia.
Defined.

Lemma Langevin_effects_witness :
  exists x' w',
    Langevin_VE_sde_corrector 1 1 1 autograd_entry (score_const 3) sde_unit
      (tconst 0) time_one (Some nloglik_entry) (Some 2) (Some 1) 2 1
      quiet_world = (inr x', w')
    /\ trace w'
       = [EvRequiresGrad; EvScore; EvNloglik; EvAutograd; EvRandn;
          EvRequiresGrad; EvScore; EvNloglik; EvAutograd; EvRandn].
Proof.
  run_calls. eexists _, _. split; [reflexivity|].
  eapply (Langevin_effects 1 1 1 autograd_entry (score_const 3) sde_unit
            (tconst 0) time_one (Some nloglik_entry) (Some 2) (Some 1) 2 1
            quiet_world).
  run_calls. reflexivity.
Defined.

Lemma EM_effects_witness :
  exists x_next x_mean w',
    Euler_Maruyama_VE_sde_predictor autograd_entry (score_const 3) sde_unit
      (tconst 0) time_one 2 (Some nloglik_entry) (Some 2) (Some 1) true
      quiet_world
    = (inr (x_next, x_mean), w')
    /\ w' = mkWorld (fun k => rng quiet_world (S k))
              [EvRequiresGrad; EvScore; EvNloglik; EvAutograd; EvRandn].
Proof.
  run_calls. eexists _, _, _. split; [reflexivity|].
  eapply (EM_effects autograd_entry (score_const 3) sde_unit (tconst 0)
            time_one 2 (Some nloglik_entry) (Some 2) (Some 1) true
            quiet_world).
  run_calls. reflexivity.
Defined.

Lemma decomposed_solver_failure_witness :
  decomposed_diffusion_sampling_VE_sde_predictor 1 1 1 unit (one_step_cg 1 1)
    (score_const 0) sde_unit (tconst 0) (tconst 1) time_one failing_closure
    1 1 [] None quiet_world
  = (inl AttributeError,
     mkWorld (rng quiet_world) (trace quiet_world ++ [EvScore; EvLinearCG])).
Proof.
  apply (decomposed_solver_failure 1 1 1 unit (one_step_cg 1 1)).
  reflexivity.
Defined.

Lemma decomposed_zero_step_witness :
  match
    fst (decomposed_diffusion_sampling_VE_sde_predictor 1 1 1 unit
           (one_step_cg 1 1) (score_const 2) sde_unit (tconst 0) (tconst 1)
           time_one (fun v => inr (conj_grad_closure v ray_identity 1))
           1 0 [] None quiet_world)
  with
  | inr (x_next, xhat) =>
      x_next 0%nat 0%nat
      = xhat 0%nat 0%nat
        - marginal_prob_std sde_unit time_one 0%nat ^ 2
          * score_const 2 (tconst 0) time_one 0%nat 0%nat
  | inl _ => False
  end.
Proof.
  pose proof (decomposed_zero_step 1 1 1 unit (one_step_cg 1 1)
                (score_const 2) sde_unit (tconst 0) (tconst 1) time_one
                (fun v => inr (conj_grad_closure v ray_identity 1))
                1 [] None quiet_world) as Hz.
  cbv zeta in Hz.
  assert (Hstd : forall b, marginal_prob_std sde_unit time_one b <> 0)
    by (intros b; cbn; lra).
  specialize (Hz Hstd).
  destruct (fst (decomposed_diffusion_sampling_VE_sde_predictor 1 1 1 unit
                   (one_step_cg 1 1) (score_const 2) sde_unit (tconst 0)
                   (tconst 1) time_one
                   (fun v => inr (conj_grad_closure v ray_identity 1))
                   1 0 [] None quiet_world)) as [e | [x_next xhat]].
  - discriminate Hz.
  - apply Hz.
Defined.

Lemma chain_simple_init_index_error_witness :
  chain_simple_init three_times sde_unit fbp_zero 3 (2%nat, 2%nat) 2 "cpu"
    quiet_world
  = (inl IndexError, quiet_world).
Proof.
  apply chain_simple_init_index_error. right. cbn. lia.
Defined.

Lemma chain_simple_init_shape_witness :
  exists x,
    chain_simple_init three_times sde_unit fbp_zero (-1) (2%nat, 2%nat) 2
      "cpu" quiet_world
    = (inr x, mkWorld (fun k => rng quiet_world (S k))
                (trace quiet_world ++ [EvRandn]))
    /\ nd_shape x = [2; 2; 2; 2]%nat.
Proof.
  destruct (chain_simple_init_shape three_times sde_unit fbp_zero (-1)
              2 2 2 1 "cpu" quiet_world)
    as (x & Hrun & Hshape & _).
  - cbn. lia.
  - reflexivity.
  - left. reflexivity.
  - exists x. split; [exact Hrun | exact Hshape].
Defined.

Lemma chain_simple_init_entries_witness :
  exists x w',
    chain_simple_init three_times sde_unit fbp_zero (-1) (2%nat, 2%nat) 2
      "cpu" quiet_world = (inr x, w')
    /\ nd_at x [1; 0; 1; 1]%nat
       = nd_at fbp_zero [0; 0; 1; 1]%nat
         + next_draw quiet_world 0%nat (1 * 2 + 1)%nat
           * marginal_prob_std sde_unit
               (fun _ => nth (Z.to_nat (-1 mod Z.of_nat
                                          (List.length three_times)))
                             three_times 0) 1%nat.
Proof.
  apply (chain_simple_init_entries three_times sde_unit fbp_zero (-1)
           2 2 2 1 "cpu" quiet_world 1 0 1 1);
    try (cbn; lia); reflexivity.
Defined.

Lemma start_time_step_range_witness :
  (0 <= py_ceil ((fun r => r) (1 * IZR 50)%R) <= 50)%Z
  /\ (1 = 1 -> py_ceil ((fun r => r) (1 * IZR 50)) = 50%Z)
  /\ start_time_step 1 50 = 50%Z.
Proof.
  apply (start_time_step_range (fun r => r) 1 50);
    [intros a b Hab; exact Hab | reflexivity | reflexivity | lra | lia].
Defined.

Lemma init_chain_fn_index_error_witness :
  exists init,
    init_chain_fn sde_unit ray_identity fbp_zero 1 "cpu" 1 3 = Some init
    /\ forall w, init three_times w = (inl IndexError, w).
Proof.
  apply (init_chain_fn_index_error sde_unit ray_identity fbp_zero 1 "cpu"
           3 three_times); [lia | reflexivity].
Defined.

Lemma train_dataset_unknown_name_witness :
  get_standard_train_dataset ascii_lower "MNIST" 3
  = inl (UnboundLocalError "train_dl").
Proof.
  apply (train_dataset_unknown_name ascii_lower "MNIST" 3);
    vm_compute; discriminate.
Defined.

Lemma train_dataset_disk_ellipses_witness :
  get_standard_train_dataset ascii_lower "diskDistributedEllipsesDataset" 1
  = inl (NameError "get_one_ellipses_dataset").
Proof.
  apply (proj1 (train_dataset_disk_ellipses ascii_lower
                  "diskDistributedEllipsesDataset" 1
                  ltac:(vm_compute; discriminate) eq_refl)).
  lia.
Defined.

Lemma configs_lodopab_unknown_sde_witness :
  get_standard_configs ascii_lower "LoDoPab" "subvp" "walnut"
  = (inl (UnboundLocalError "get_config"), []).
Proof.
  apply (configs_lodopab_unknown_sde ascii_lower "LoDoPab" "subvp" "walnut");
    [reflexivity | vm_compute; discriminate | vm_compute; discriminate].
Defined.

(** ** The zero step at a zero loss *)

(** On finite values and a non-zero loss the entry computed over the
    extended reals is the entry of [x_mean] that the predictor returns in
    Tweedy mode. *)
Lemma tweedy_x_mean_entry_agrees
    (autograd : (tensor -> R) -> tensor -> tensor)
    (score : score_fn) (sde : SDE) (x : tensor) (t : tvec)
    (step_size : R) (f : nloglik_fn) (datafitscale penalty : R) (w : world) :
  let std2 := tpow2 (unsqueeze (marginal_prob_std sde t)) in
  let objective x' := f (tadd x' (tmul (score x' t) std2)) in
  objective x <> 0 ->
  exists x_next x_mean w',
    Euler_Maruyama_VE_sde_predictor autograd score sde x t step_size
      (Some f) (Some datafitscale) (Some penalty) true w
    = (inr (x_next, x_mean), w')
    /\ forall b n,
         tweedy_x_mean_entry (Fin (x b n)) (Fin (score x t b n))
           (Fin (diffusion_coeff sde t b)) (Fin step_size) (Fin penalty)
           (Fin (autograd objective x b n)) (Fin (objective x))
         = Fin (x_mean b n).
Proof.
  intros std2 objective Hloss. run_calls. eexists _, _, _.
  split; [reflexivity|]. intros b n.
  unfold tweedy_x_mean_entry, xsub, xadd, xmul, xopp, xinv.
  destruct (Req_EM_T (objective x) 0) as [E | _]; [contradiction|].
  f_equal. subst objective std2. entrywise. ring.
Qed.

(** C5 as stated fails: with [step_size = 0] in Tweedy mode, a state and a
    score of zero and the data-fit function [x |-> x[0,0,0,0]], the loss at
    the Tweedy estimate is zero, [datafitscale] is infinite, the correction
    [penalty * 0 * inf] is NaN, and so is [x_mean]: it is not the input. *)
Lemma EM_zero_step_zero_loss_is_nan :
  let x := tconst 0 in
  let xhat0 :=
    tadd x (tmul (score_const 0 x time_one)
                 (tpow2 (unsqueeze (marginal_prob_std sde_unit time_one)))) in
  let x_mean :=
    tweedy_x_mean_entry (Fin (x 0%nat 0%nat))
      (Fin (score_const 0 x time_one 0%nat 0%nat))
      (Fin (diffusion_coeff sde_unit time_one 0%nat)) (Fin 0) (Fin 1)
      (Fin (autograd_entry (fun x' => nloglik_entry x') x 0%nat 0%nat))
      (Fin (nloglik_entry xhat0)) in
  nloglik_entry xhat0 = 0 /\ x_mean = NaN /\ x_mean <> Fin (x 0%nat 0%nat).
Proof.
  cbv zeta.
  assert (Hloss : nloglik_entry
                    (tadd (tconst 0)
                       (tmul (score_const 0 (tconst 0) time_one)
                          (tpow2 (unsqueeze
                             (marginal_prob_std sde_unit time_one))))) = 0).
  { unfold nloglik_entry, score_const, tconst. entrywise. ring. }
  rewrite Hloss.
  assert (Hnan : tweedy_x_mean_entry (Fin (tconst 0 0%nat 0%nat))
                   (Fin (score_const 0 (tconst 0) time_one 0%nat 0%nat))
                   (Fin (diffusion_coeff sde_unit time_one 0%nat)) (Fin 0)
                   (Fin 1)
                   (Fin (autograd_entry (fun x' => nloglik_entry x')
                           (tconst 0) 0%nat 0%nat))
                   (Fin 0) = NaN).
  { unfold tweedy_x_mean_entry, xsub, xadd, xmul, xopp, xinv, xscale_inf.
    destruct (Req_EM_T 0 0) as [_ | Hne]; [|contradiction Hne; reflexivity].
    match goal with
    | |- context [Req_EM_T ?a 0] =>
        destruct (Req_EM_T a 0) as [_ | Hne]; [reflexivity|]
    end.
    exfalso. apply Hne.
    unfold score_const, autograd_entry, tconst, sde_unit.
    cbn [diffusion_coeff]. ring. }
  rewrite Hnan. split; [reflexivity|]. split; [reflexivity | discriminate].
Qed.

(** C5 (amended) on a Tweedy call with loss one. *)
Lemma EM_zero_step_mean_witness :
  exists x_next x_mean w',
    Euler_Maruyama_VE_sde_predictor autograd_entry (score_const 0) sde_unit
      (tconst 1) time_one 0 (Some nloglik_entry) (Some 1) (Some 1) true
      quiet_world
    = (inr (x_next, x_mean), w')
    /\ x_mean =t= tconst 1.
Proof.
  run_calls. eexists _, _, _. split; [reflexivity|].
  eapply (proj1 (EM_zero_step_mean autograd_entry (score_const 0) sde_unit
                   (tconst 1) time_one (Some nloglik_entry) (Some 1)
                   (Some 1) true quiet_world _)).
  run_calls. reflexivity.
  Unshelve.
  intros f Hf _. injection Hf as <-.
  unfold nloglik_entry, score_const, tconst. entrywise. lra.
Defined.

(** X11 on a Tweedy call with loss one. *)
Lemma EM_zero_penalty_witness :
  exists x_next x_mean w1 x_next' x_mean' w2,
    Euler_Maruyama_VE_sde_predictor autograd_entry (score_const 0) sde_unit
      (tconst 1) time_one 2 (Some nloglik_entry) (Some 1) (Some 0) true
      quiet_world
    = (inr (x_next, x_mean), w1)
    /\ Euler_Maruyama_VE_sde_predictor autograd_entry (score_const 0)
         sde_unit (tconst 1) time_one 2 None None None false quiet_world
       = (inr (x_next', x_mean'), w2)
    /\ x_next =t= x_next' /\ x_mean =t= x_mean'.
Proof.
  assert (Hloss : true = true ->
            nloglik_entry
              (tadd (tconst 1)
                 (tmul (score_const 0 (tconst 1) time_one)
                    (tpow2 (unsqueeze (marginal_prob_std sde_unit time_one)))))
            <> 0).
  { intros _. unfold nloglik_entry, score_const, tconst. entrywise. lra. }
  destruct (Euler_Maruyama_VE_sde_predictor autograd_entry (score_const 0)
              sde_unit (tconst 1) time_one 2 (Some nloglik_entry) (Some 1)
              (Some 0) true quiet_world) as [[e | [xn xm]] w1] eqn:Hrun.
  - revert Hrun. run_calls. discriminate.
  - destruct (EM_zero_penalty autograd_entry (score_const 0) sde_unit
                (tconst 1) time_one 2 nloglik_entry 1 true quiet_world
                xn xm w1 Hloss Hrun)
      as (xn' & xm' & w2 & Hplain & Hn & Hm).
    exists xn, xm, w1, xn', xm', w2.
    split; [reflexivity|].
    split; [exact Hplain|]. split; [exact Hn | exact Hm].
Defined.
